(** * Clipboard manager: history store and monitor loop

    A shallow embedding of [clipboard-manager-simple.py] (the colorized
    variant differs only in what it prints) and the properties of its
    history file and of its polling loop.

    Text is a list of characters, with the code points below 256 for
    characters.  The history file is represented by the text that
    [f.read()] returns; every text the program handles comes out of a
    universal-newlines read (the file, or xclip's output with [text=True]),
    so a write followed by a read gives the text back.
    Opening, reading and writing the history and log files is taken to
    succeed; what xclip does is an input of the model. *)

From Stdlib Require Import String.
From Stdlib Require Import Ascii Arith ZArith Lia Bool List.
Import ListNotations.

(** ** Python [str] *)

Definition str := list ascii.

(** A literal of the source. *)
Definition lit (s : string) : str := list_ascii_of_string s.
Arguments lit s%_string.

(** Truth value of a text or of a list: non-empty. *)
Definition truthy {A : Type} (s : list A) : bool :=
  match s with
  | [] => false
  | _ :: _ => true
  end.

(** [a == b] on texts. *)
Fixpoint str_eqb (a b : str) : bool :=
  match a, b with
  | [], [] => true
  | x :: a', y :: b' => Ascii.eqb x y && str_eqb a' b'
  | _, _ => false
  end.

(** The characters [str.strip()] removes, among the code points below 256:
    tab, line feed, vertical tab, form feed, carriage return, the four
    separators 0x1c-0x1f, space, NEL (0x85) and no-break space (0xa0). *)
Definition isspace (c : ascii) : bool :=
  let n := nat_of_ascii c in
  ((9 <=? n) && (n <=? 13)) || ((28 <=? n) && (n <=? 32))
  || (n =? 133) || (n =? 160).

Fixpoint lstrip (s : str) : str :=
  match s with
  | [] => []
  | c :: s' => if isspace c then lstrip s' else s
  end.

Definition rstrip (s : str) : str := rev (lstrip (rev s)).

Definition strip (s : str) : str := rstrip (lstrip s).

(** [s.startswith(p)] *)
Fixpoint startswith (s p : str) {struct p} : bool :=
  match p, s with
  | [], _ => true
  | _ :: _, [] => false
  | b :: p', a :: s' => Ascii.eqb a b && startswith s' p'
  end.

(** [s.partition(sep)]: the text before the first occurrence of [sep] and
    the text after it, [None] when [sep] does not occur in [s]. *)
Fixpoint partition (s sep : str) {struct s} : option (str * str) :=
  if startswith s sep then Some ([], skipn (length sep) s)
  else
    match s with
    | [] => None
    | c :: s' =>
        match partition s' sep with
        | Some (before, after) => Some (c :: before, after)
        | None => None
        end
    end.

(** [sub in s] *)
Definition contains (s sub : str) : bool :=
  match partition s sub with
  | Some _ => true
  | None => false
  end.

(** [s.split(sep)] for a non-empty [sep]: cut at the first occurrence, go on
    with what follows it.  Each cut consumes at least one character, so
    [length s] rounds are enough (lemma [split_fuel_enough]). *)
Fixpoint split_fuel (fuel : nat) (s sep : str) : list str :=
  match fuel with
  | O => [s]
  | S fuel' =>
      match partition s sep with
      | None => [s]
      | Some (before, after) => before :: split_fuel fuel' after sep
      end
  end.

Definition split (s sep : str) : list str := split_fuel (length s) s sep.

(** [sep.join(parts)] *)
Fixpoint join (sep : str) (parts : list str) : str :=
  match parts with
  | [] => []
  | [x] => x
  | x :: rest => x ++ sep ++ join sep rest
  end.

Definition newline : ascii := ascii_of_nat 10.

(** ** Exceptions and the xclip subprocess *)

Inductive exception : Type :=
| SubprocessError
| TimeoutExpired        (* a subclass of SubprocessError *)
| OSError               (* e.g. FileNotFoundError: no xclip executable *)
| UnicodeDecodeError.   (* output that is not text in the locale's encoding *)

(** [isinstance(e, subprocess.SubprocessError)] *)
Definition is_SubprocessError (e : exception) : bool :=
  match e with
  | SubprocessError | TimeoutExpired => true
  | OSError | UnicodeDecodeError => false
  end.

Inductive result (A : Type) : Type :=
| Ok (a : A)
| Raise (e : exception).
Arguments Ok {A} a.
Arguments Raise {A} e.

Definition bind {A B : Type} (m : result A) (k : A -> result B) : result B :=
  match m with
  | Ok a => k a
  | Raise e => Raise e
  end.

Notation "x <- m ;; k" := (bind m (fun x => k))
  (at level 61, m at next level, right associativity).

(** What [subprocess.run(["xclip", "-o", ...], timeout=2)] does: it returns a
    completed process, or raises. *)
Inductive run_outcome : Type :=
| CompletedProcess (returncode : Z) (stdout : str)
| Raises (e : exception).

(** ** ClipboardManager *)

(** The attributes the methods read.  [str.split] raises ValueError on an
    empty separator; the model leaves that out, and the properties of
    managers other than [init] assume a separator that is not empty. *)
Record ClipboardManager : Type := {
  max_entries : nat;
  separator : str
}.

(** [__init__] *)
Definition init : ClipboardManager := {|
  max_entries := 5;
  separator := lit "---CLIPBOARD_ENTRY_SEPARATOR---"
|}.

Definition get_clipboard_content (xclip : run_outcome) : result str :=
  match xclip with
  | CompletedProcess returncode stdout =>
      Ok (if (returncode =? 0)%Z then stdout else [])
  | Raises e =>
      if is_SubprocessError e then Ok [] else Raise e
  end.

(** What [Popen(["xclip", ...]).communicate(input=content)] does. *)
Inductive popen_outcome : Type :=
| Exited (returncode : Z)
| PopenRaises (e : exception).

Definition set_clipboard_content (xclip : popen_outcome) : result bool :=
  match xclip with
  | Exited returncode => Ok (returncode =? 0)%Z
  | PopenRaises e => if is_SubprocessError e then Ok false else Raise e
  end.

Definition trim_history (self : ClipboardManager) (file : str) : str :=
  let content := file in
  let entries := split content (separator self) in
  if max_entries self <? length entries
  then join (separator self) (firstn (max_entries self) entries)
  else file.

(** [add_to_history]: the value returned and the history file afterwards. *)
Definition add_to_history (self : ClipboardManager) (xclip : run_outcome)
    (file : str) : result (bool * str) :=
  content <- get_clipboard_content xclip ;;
  if negb (truthy content) then Ok (false, file)
  else
    let history := file in
    let entries := split history (separator self) in
    if truthy entries && str_eqb (strip (hd [] entries)) (strip content)
    then Ok (false, file)
    else
      let file' :=
        content ++ (newline :: separator self ++ [newline]) ++ history in
      Ok (true, trim_history self file').

Definition clear_history (file : str) : bool * str := (true, []).

(** *** show_history *)

(** The menu line of an entry: first line, cut at 60 characters, marked when
    the entry has more lines. *)
Definition display_line (entry : str) : str :=
  let first_line := hd [] (split (strip entry) [newline]) in
  let first_line :=
    if 60 <? length first_line then firstn 57 first_line ++ lit "..."
    else first_line in
  if contains (strip entry) [newline] then first_line ++ lit " [...]"
  else first_line.

(** The loop over the blocks of the file, appending to [display_entries] and
    [full_entries]. *)
Fixpoint collect_entries (entries display_entries full_entries : list str)
    : list str * list str :=
  match entries with
  | [] => (display_entries, full_entries)
  | entry :: rest =>
      if truthy (strip entry)
      then collect_entries rest (display_entries ++ [display_line entry])
                                (full_entries ++ [strip entry])
      else collect_entries rest display_entries full_entries
  end.

(** What [show_history] has in [display_entries] and [full_entries] when it
    enters the menu; [None] when it returns before ("history is empty", "no
    valid entries"). *)
Definition load_entries (self : ClipboardManager) (file : str)
    : option (list str * list str) :=
  let content := file in
  if negb (truthy (strip content)) then None
  else
    let entries := split content (separator self) in
    let '(display_entries, full_entries) := collect_entries entries [] [] in
    if negb (truthy display_entries) then None
    else Some (display_entries, full_entries).

(** The entries the browser offers, in menu order: empty when there is no
    menu. *)
Definition full_entries (self : ClipboardManager) (file : str) : list str :=
  match load_entries self file with
  | Some (_, full) => full
  | None => []
  end.

(** One answer of the user at the menu prompt, with the answers to the
    prompts that follow it, parsed: [int(...)] gives [None] for ValueError. *)
Inductive choice : Type :=
| Choice_q
| Choice_c (confirm : bool)
| Choice_p (preview_num : option Z)
| Choice_number (number : option Z) (xclip : popen_outcome).

Inductive output : Type :=
| History_is_empty
| No_valid_entries
| Menu (display_entries : list str)
| Preview (preview_lines : list str) (more : bool)
| Copied_to_clipboard
| Invalid_number
| Enter_valid_number
| History_cleared
| Error_showing_history (e : exception).

Record session : Type := {
  session_file : str;          (* the history file *)
  clipboard_calls : list str;  (* what set_clipboard_content was called
                                  with, oldest first *)
  printed : list output        (* oldest first *)
}.

Definition print (o : output) (s : session) : session :=
  {| session_file := session_file s; clipboard_calls := clipboard_calls s;
     printed := printed s ++ [o] |}.

Definition pipe (text : str) (s : session) : session :=
  {| session_file := session_file s;
     clipboard_calls := clipboard_calls s ++ [text];
     printed := printed s |}.

Definition preview (full : list str) (preview_num : option Z) : output :=
  match preview_num with
  | None => Enter_valid_number
  | Some n =>
      let preview_index := (n - 1)%Z in
      if ((0 <=? preview_index) && (preview_index <? Z.of_nat (length full)))%Z
      then
        let entry := nth (Z.to_nat preview_index) full [] in
        let preview_lines := firstn 5 (split entry [newline]) in
        Preview preview_lines
          (length preview_lines <? length (split entry [newline]))
      else Invalid_number
  end.

(** The [while True] loop of the menu, one round per answer; it ends when
    the source returns, or is left waiting for an answer. *)
Fixpoint menu (display full : list str) (answers : list choice) (s : session)
    : session :=
  let s := print (Menu display) s in
  match answers with
  | [] => s
  | Choice_q :: _ => s
  | Choice_c confirm :: rest =>
      if confirm then
        let '(cleared, file') := clear_history (session_file s) in
        let s := print History_cleared
                   {| session_file := file';
                      clipboard_calls := clipboard_calls s;
                      printed := printed s |} in
        if cleared then s else menu display full rest s
      else menu display full rest s
  | Choice_p preview_num :: rest =>
      menu display full rest (print (preview full preview_num) s)
  | Choice_number None _ :: rest =>
      menu display full rest (print Enter_valid_number s)
  | Choice_number (Some number) xclip :: rest =>
      let index := (number - 1)%Z in
      if ((0 <=? index) && (index <? Z.of_nat (length full)))%Z then
        let selected := nth (Z.to_nat index) full [] in
        let s := pipe selected s in
        match set_clipboard_content xclip with
        | Ok true => print Copied_to_clipboard s
        | Ok false => menu display full rest s
        | Raise e => print (Error_showing_history e) s
        end
      else menu display full rest (print Invalid_number s)
  end.

Definition show_history (self : ClipboardManager) (file : str)
    (answers : list choice) : session :=
  let s := {| session_file := file; clipboard_calls := []; printed := [] |} in
  let content := file in
  if negb (truthy (strip content)) then print History_is_empty s
  else
    match load_entries self file with
    | None => print No_valid_entries s
    | Some (display_entries, full) => menu display_entries full answers s
    end.

(** *** monitor *)

Inductive log_line : Type :=
| Monitor_started
| Initial_clipboard_test (success : bool)
| Error_testing_clipboard (e : exception)
| Clipboard_updated
| Error (e : exception)
| Too_many_errors (retry_count : nat)
| Monitor_stopped_by_user.

Record monitor_state : Type := {
  last_content : str;
  retry_count : nat;
  history_file : str;
  log : list log_line;      (* the log file, oldest line first *)
  sleeps : list nat;        (* seconds of each sleep, oldest first *)
  add_calls : nat;          (* ghost: calls of add_to_history so far *)
  running : bool            (* false once the loop is left *)
}.

Definition max_retries : nat := 5.

(** What happens around one round of the loop: the outcome of the xclip run of
    [get_clipboard_content] in the loop body and of the one inside
    [add_to_history] (used when that is called), or Ctrl-C. *)
Inductive tick : Type :=
| Poll (xclip xclip_add : run_outcome)
| KeyboardInterrupt.

(** The [except Exception] branch of the loop body. *)
Definition on_exception (e : exception) (st : monitor_state) : monitor_state :=
  let retry_count := retry_count st + 1 in
  let log := log st ++ [Error e] in
  if max_retries <=? retry_count then
    {| last_content := last_content st; retry_count := retry_count;
       history_file := history_file st;
       log := log ++ [Too_many_errors retry_count];
       sleeps := sleeps st; add_calls := add_calls st; running := false |}
  else
    {| last_content := last_content st; retry_count := retry_count;
       history_file := history_file st; log := log;
       sleeps := sleeps st ++ [5]; add_calls := add_calls st;
       running := true |}.

Definition set_retry_count (n : nat) (st : monitor_state) : monitor_state :=
  {| last_content := last_content st; retry_count := n;
     history_file := history_file st; log := log st; sleeps := sleeps st;
     add_calls := add_calls st; running := running st |}.

(** One round of [while True]. *)
Definition monitor_round (self : ClipboardManager) (t : tick)
    (st : monitor_state) : monitor_state :=
  match t with
  | KeyboardInterrupt =>
      {| last_content := last_content st; retry_count := retry_count st;
         history_file := history_file st;
         log := log st ++ [Monitor_stopped_by_user];
         sleeps := sleeps st; add_calls := add_calls st; running := false |}
  | Poll xclip xclip_add =>
      match get_clipboard_content xclip with
      | Raise e => on_exception e st
      | Ok current_content =>
          let st := set_retry_count 0 st in
          if truthy current_content
             && negb (str_eqb current_content (last_content st))
          then
            match add_to_history self xclip_add (history_file st) with
            | Raise e =>
                on_exception e
                  {| last_content := last_content st;
                     retry_count := retry_count st;
                     history_file := history_file st; log := log st;
                     sleeps := sleeps st; add_calls := add_calls st + 1;
                     running := running st |}
            | Ok (added, file') =>
                {| last_content := current_content;
                   retry_count := retry_count st;
                   history_file := file';
                   log := if added then log st ++ [Clipboard_updated]
                          else log st;
                   sleeps := sleeps st ++ [1];
                   add_calls := add_calls st + 1;
                   running := true |}
            end
          else
            {| last_content := last_content st; retry_count := retry_count st;
               history_file := history_file st; log := log st;
               sleeps := sleeps st ++ [1]; add_calls := add_calls st;
               running := true |}
      end
  end.

Fixpoint monitor_loop (self : ClipboardManager) (ticks : list tick)
    (st : monitor_state) : monitor_state :=
  match ticks with
  | [] => st
  | t :: rest =>
      if running st then monitor_loop self rest (monitor_round self t st)
      else st
  end.

(** [monitor]: the start-up test of the clipboard, then the loop, over the
    history file [file]. *)
Definition monitor_start (xclip_test : run_outcome) (file : str)
    : monitor_state :=
  {| last_content := [];
     retry_count := 0;
     history_file := file;
     log := Monitor_started ::
            match get_clipboard_content xclip_test with
            | Ok test_content => [Initial_clipboard_test true]
            | Raise e => [Error_testing_clipboard e]
            end;
     sleeps := []; add_calls := 0; running := true |}.

Definition monitor (self : ClipboardManager) (xclip_test : run_outcome)
    (file : str) (ticks : list tick) : monitor_state :=
  monitor_loop self ticks (monitor_start xclip_test file).

(** *** main *)

(** The command line action, with what the environment does during it. *)
Inductive action : Type :=
| Action_add (xclip : run_outcome)
| Action_show (answers : list choice)
| Action_monitor (xclip_test : run_outcome) (ticks : list tick)
| Action_clear.

(** The history file after one invocation of the program run with the
    manager [self]; an exception that leaves [add_to_history] ends the
    process before anything is written. *)
Definition main_with (self : ClipboardManager) (a : action) (file : str)
    : str :=
  match a with
  | Action_add xclip =>
      match add_to_history self xclip file with
      | Ok (_, file') => file'
      | Raise _ => file
      end
  | Action_show answers => session_file (show_history self file answers)
  | Action_monitor xclip_test ticks =>
      history_file (monitor self xclip_test file ticks)
  | Action_clear => snd (clear_history file)
  end.

Definition main : action -> str -> str := main_with init.

(** Invocations one after the other. *)
Definition run (self : ClipboardManager) (actions : list action) (file : str)
    : str :=
  fold_left (fun f a => main_with self a f) actions file.

(** ** Vocabulary of the properties *)

(** [add] of the history store: [add_to_history] when reading the clipboard
    gives [candidate]; the value returned and the file afterwards. *)
Definition add (self : ClipboardManager) (candidate file : str) : bool * str :=
  match add_to_history self (CompletedProcess 0 candidate) file with
  | Ok r => r
  | Raise _ => (false, file)
  end.

(** The file after adding the candidates one after the other. *)
Definition adds (self : ClipboardManager) (candidates : list str) (file : str)
    : str :=
  fold_left (fun f candidate => snd (add self candidate f)) candidates file.

(** A manager whose separator can delimit blocks and that keeps an entry. *)
Definition well_formed (self : ClipboardManager) : Prop :=
  separator self <> [] /\ ~ In newline (separator self) /\
  1 <= max_entries self.

(** The history holds at most [max_entries] entries. *)
Definition bounded (self : ClipboardManager) (file : str) : Prop :=
  length (full_entries self file) <= max_entries self.

(** The blocks of the history file. *)
Definition blocks (self : ClipboardManager) (file : str) : list str :=
  split file (separator self).

(** A block of the file counts as an entry when stripping leaves text. *)
Definition nonblank (entry : str) : bool := truthy (strip entry).

(** A failed read of the clipboard: xclip exits with a status other than 0,
    or running it raises SubprocessError or TimeoutExpired. *)
Inductive failed_read : run_outcome -> Prop :=
| failed_exit (returncode : Z) (stdout : str) :
    returncode <> 0%Z -> failed_read (CompletedProcess returncode stdout)
| failed_subprocess : failed_read (Raises SubprocessError)
| failed_timeout : failed_read (Raises TimeoutExpired).

(** A text as an entry reads in the browser: not empty, nothing to strip,
    and without the separator inside. *)
Definition plain (self : ClipboardManager) (x : str) : Prop :=
  x <> [] /\ strip x = x /\ contains x (separator self) = false.

(** No two neighbouring blocks are the same text once stripped. *)
Fixpoint adjacent_distinct (l : list str) : Prop :=
  match l with
  | a :: (b :: _) as rest => strip a <> strip b /\ adjacent_distinct rest
  | _ => True
  end.

(** The answer "c" confirmed with "y" or "yes". *)
Definition is_confirmed_clear (c : choice) : bool :=
  match c with
  | Choice_c true => true
  | _ => false
  end.


(** What the monitor keeps true of its counter and of its log: the counter
    never passes [max_retries], is below it while the loop runs, and "Too
    many errors" is logged only with [max_retries] and only when the loop
    is left. *)
Definition counter_invariant (st : monitor_state) : Prop :=
  retry_count st <= max_retries /\
  (running st = true -> retry_count st < max_retries) /\
  (forall k, In (Too_many_errors k) (log st) ->
             k = max_retries /\ running st = false).

(** * Properties *)

(** ** Text comparison *)

Lemma str_eqb_eq (a b : str) : str_eqb a b = true <-> a = b.
Proof.
  revert b; induction a as [|x a IH]; intros [|y b]; simpl;
    try (split; [discriminate | congruence]); try tauto.
  rewrite andb_true_iff, Ascii.eqb_eq, IH.
  split; [intros [-> ->]; reflexivity | intros H; inversion H; auto].
Qed.

Lemma str_eqb_refl (a : str) : str_eqb a a = true.
Proof. apply str_eqb_eq; reflexivity. Qed.

Lemma str_eqb_neq (a b : str) : str_eqb a b = false <-> a <> b.
Proof.
  rewrite <- str_eqb_eq. destruct (str_eqb a b); split; congruence.
Qed.

Lemma truthy_false {A : Type} (s : list A) : truthy s = false <-> s = [].
Proof. destruct s; simpl; split; congruence. Qed.

Lemma truthy_true {A : Type} (s : list A) : truthy s = true <-> s <> [].
Proof. destruct s; simpl; split; congruence. Qed.

(** ** strip *)

Lemma isspace_newline : isspace newline = true.
Proof. reflexivity. Qed.

Lemma lstrip_all_space (s : str) :
  lstrip s = [] <-> Forall (fun c => isspace c = true) s.
Proof.
  induction s as [|c s IH]; simpl.
  - split; auto.
  - destruct (isspace c) eqn:E.
    + rewrite IH. split; [auto | intros H; inversion H; auto].
    + split; [discriminate | intros H; inversion H; congruence].
Qed.

Lemma lstrip_head (s : str) :
  lstrip s = [] \/ exists c t, lstrip s = c :: t /\ isspace c = false.
Proof.
  induction s as [|c s IH]; simpl; auto.
  destruct (isspace c) eqn:E; auto.
  right; exists c, s; auto.
Qed.

Lemma lstrip_idem (s : str) : lstrip (lstrip s) = lstrip s.
Proof.
  destruct (lstrip_head s) as [-> | (c & t & -> & E)]; simpl; auto.
  now rewrite E.
Qed.

Lemma lstrip_snoc (s : str) (c : ascii) :
  lstrip (s ++ [c]) =
  match lstrip s with
  | [] => lstrip [c]
  | u => u ++ [c]
  end.
Proof.
  induction s as [|d s IH]; simpl.
  - reflexivity.
  - destruct (isspace d); auto.
Qed.

Lemma rstrip_snoc_space (s : str) (c : ascii) :
  isspace c = true -> rstrip (s ++ [c]) = rstrip s.
Proof.
  intros E. unfold rstrip. rewrite rev_app_distr. simpl. now rewrite E.
Qed.

Lemma rstrip_cons (c : ascii) (s : str) :
  rstrip (c :: s) =
  match rstrip s with
  | [] => if isspace c then [] else [c]
  | u => c :: u
  end.
Proof.
  unfold rstrip. simpl rev at 2. rewrite lstrip_snoc.
  destruct (lstrip (rev s)) as [|d u] eqn:E; simpl.
  - destruct (isspace c); reflexivity.
  - rewrite rev_app_distr. simpl.
    destruct (rev u ++ [d]) eqn:E'; [destruct (rev u); discriminate|].
    reflexivity.
Qed.

Lemma rstrip_idem (s : str) : rstrip (rstrip s) = rstrip s.
Proof.
  unfold rstrip. now rewrite rev_involutive, lstrip_idem.
Qed.

Lemma rstrip_keeps_head (c : ascii) (t : str) :
  isspace c = false -> exists u, rstrip (c :: t) = c :: u.
Proof.
  intros E. rewrite rstrip_cons, E.
  destruct (rstrip t); eauto.
Qed.

(** A stripped text is empty or begins with a character that is not
    whitespace. *)
Lemma strip_head (s : str) :
  strip s = [] \/ exists c t, strip s = c :: t /\ isspace c = false.
Proof.
  unfold strip.
  destruct (lstrip_head s) as [-> | (c & t & -> & E)]; [left; reflexivity|].
  destruct (rstrip_keeps_head c t E) as [u ->]. right; eauto.
Qed.

Lemma strip_idem (s : str) : strip (strip s) = strip s.
Proof.
  destruct (strip_head s) as [E | (c & t & E & Hc)].
  - rewrite E. reflexivity.
  - unfold strip at 1. rewrite E. simpl. rewrite Hc.
    rewrite <- E. unfold strip. apply rstrip_idem.
Qed.

Lemma strip_snoc_space (s : str) (c : ascii) :
  isspace c = true -> strip (s ++ [c]) = strip s.
Proof.
  intros E. unfold strip. rewrite lstrip_snoc.
  destruct (lstrip s) as [|d u] eqn:El.
  - simpl. rewrite E. reflexivity.
  - change (rstrip ((d :: u) ++ [c]) = rstrip (d :: u)).
    now apply rstrip_snoc_space.
Qed.

Lemma strip_cons_space (c : ascii) (s : str) :
  isspace c = true -> strip (c :: s) = strip s.
Proof. intros E. unfold strip. simpl. now rewrite E. Qed.

Lemma strip_all_space (s : str) :
  strip s = [] <-> Forall (fun c => isspace c = true) s.
Proof.
  rewrite <- lstrip_all_space. unfold strip. split.
  - intros H. destruct (lstrip_head s) as [E | (c & t & E & Hc)]; auto.
    rewrite E in H. destruct (rstrip_keeps_head c t Hc) as [u Hu].
    congruence.
  - intros ->. reflexivity.
Qed.

(** ** startswith, partition *)

Lemma startswith_app (p t : str) : startswith (p ++ t) p = true.
Proof.
  induction p as [|b p IH]; cbn [startswith app length skipn]; auto.
  now rewrite Ascii.eqb_refl, IH.
Qed.

Lemma startswith_inv (s p : str) :
  startswith s p = true -> s = p ++ skipn (length p) s.
Proof.
  revert s; induction p as [|b p IH]; intros [|a s];
    cbn [startswith app length skipn]; auto;
    try discriminate.
  rewrite andb_true_iff, Ascii.eqb_eq. intros [-> H].
  f_equal. now apply IH.
Qed.

Lemma startswith_app_long (u v p : str) :
  length p <= length u -> startswith (u ++ v) p = startswith u p.
Proof.
  revert u; induction p as [|b p IH]; intros [|a u];
    cbn [startswith app length skipn]; auto; try lia.
  intros H. rewrite IH by lia. reflexivity.
Qed.

Lemma startswith_app_false (u v p : str) :
  startswith (u ++ v) p = false -> startswith u p = false.
Proof.
  revert u; induction p as [|b p IH]; intros [|a u];
    cbn [startswith app length skipn]; auto.
  rewrite !andb_false_iff. intros [H | H]; auto.
Qed.

Lemma startswith_fresh (u v p : str) (c : ascii) :
  ~ In c p -> startswith u p = false -> startswith (u ++ c :: v) p = false.
Proof.
  revert u; induction p as [|b p IH]; intros [|a u] Hc;
    cbn [startswith app length skipn];
    try discriminate.
  - intros _. destruct (Ascii.eqb_spec c b) as [->|]; auto.
    exfalso; apply Hc; left; reflexivity.
  - rewrite !andb_false_iff. intros [H | H]; auto.
    right. apply IH; auto. intros Hin; apply Hc; right; exact Hin.
Qed.

Section Split.

Variable sep : str.
Hypothesis sep_nonempty : sep <> [].

Lemma startswith_nil : startswith [] sep = false.
Proof. destruct sep; [congruence | reflexivity]. Qed.

Lemma partition_nil : partition [] sep = None.
Proof. simpl. now rewrite startswith_nil. Qed.

Lemma partition_found (s : str) :
  startswith s sep = true -> partition s sep = Some ([], skipn (length sep) s).
Proof. intros H. destruct s; simpl; now rewrite H. Qed.

Lemma partition_step (c : ascii) (s : str) :
  startswith (c :: s) sep = false ->
  partition (c :: s) sep =
  match partition s sep with
  | Some (before, after) => Some (c :: before, after)
  | None => None
  end.
Proof.
  intros H. change (partition (c :: s) sep) with
    (if startswith (c :: s) sep then Some ([], skipn (length sep) (c :: s))
     else match partition s sep with
          | Some (before, after) => Some (c :: before, after)
          | None => None
          end).
  now rewrite H.
Qed.

Lemma partition_app_sep (b : str) : partition (sep ++ b) sep = Some ([], b).
Proof.
  rewrite partition_found by apply startswith_app.
  now rewrite skipn_app, skipn_all, Nat.sub_diag.
Qed.

(** What [partition] finds is an occurrence of the separator. *)
Lemma partition_Some (s a b : str) :
  partition s sep = Some (a, b) -> s = a ++ sep ++ b.
Proof.
  revert a b; induction s as [|c s IH]; intros a b.
  - now rewrite partition_nil.
  - destruct (startswith (c :: s) sep) eqn:E.
    + rewrite partition_found by exact E. intros H; inversion H; subst.
      simpl. now apply startswith_inv.
    + rewrite partition_step by exact E.
      destruct (partition s sep) as [[a' b']|] eqn:P; [|discriminate].
      intros H; inversion H; subst. simpl. f_equal. now apply IH.
Qed.

Lemma partition_shorter (s a b : str) :
  partition s sep = Some (a, b) -> length b < length s.
Proof.
  intros H. apply partition_Some in H. subst s.
  rewrite !length_app. destruct sep; [congruence | simpl; lia].
Qed.

(** It is the first occurrence: nothing of what follows it matters. *)
Lemma partition_prefix (s a b b' : str) :
  partition s sep = Some (a, b) ->
  partition (a ++ sep ++ b') sep = Some (a, b').
Proof.
  revert a b; induction s as [|c s IH]; intros a b.
  - now rewrite partition_nil.
  - destruct (startswith (c :: s) sep) eqn:E.
    + rewrite partition_found by exact E. intros H; inversion H; subst.
      apply partition_app_sep.
    + rewrite partition_step by exact E.
      destruct (partition s sep) as [[a' b0]|] eqn:P; [|discriminate].
      intros H; inversion H; subst.
      pose proof (partition_Some _ _ _ P) as Hs.
      assert (F : startswith ((c :: a') ++ sep ++ b') sep = false).
      { rewrite app_assoc, startswith_app_long
          by (rewrite length_app; simpl; lia).
        rewrite Hs in E. change (c :: a' ++ sep ++ b) with
          ((c :: a') ++ sep ++ b) in E.
        rewrite app_assoc, startswith_app_long in E
          by (rewrite length_app; simpl; lia).
        exact E. }
      change ((c :: a') ++ sep ++ b') with (c :: a' ++ sep ++ b') in *.
      rewrite partition_step by exact F.
      now rewrite (IH _ _ eq_refl).
Qed.

(** The text before the first occurrence holds no occurrence. *)
Lemma partition_before (s a b : str) :
  partition s sep = Some (a, b) -> partition a sep = None.
Proof.
  revert a b; induction s as [|c s IH]; intros a b.
  - now rewrite partition_nil.
  - destruct (startswith (c :: s) sep) eqn:E.
    + rewrite partition_found by exact E. intros H; inversion H; subst.
      apply partition_nil.
    + rewrite partition_step by exact E.
      destruct (partition s sep) as [[a' b0]|] eqn:P; [|discriminate].
      intros H; inversion H; subst.
      pose proof (partition_Some _ _ _ P) as Hs. rewrite Hs in E.
      change (c :: a' ++ sep ++ b) with ((c :: a') ++ sep ++ b) in E.
      apply startswith_app_false in E.
      rewrite partition_step by exact E. now rewrite (IH _ _ eq_refl).
Qed.

Lemma partition_None_inv (c : ascii) (s : str) :
  partition (c :: s) sep = None ->
  startswith (c :: s) sep = false /\ partition s sep = None.
Proof.
  destruct (startswith (c :: s) sep) eqn:E.
  - now rewrite partition_found by exact E.
  - rewrite partition_step by exact E.
    destruct (partition s sep) as [[a b]|]; [discriminate | auto].
Qed.

(** A text without the separator, then a character that is not in the
    separator, then the separator: the first occurrence is that one. *)
Lemma partition_fresh (x rest : str) (c : ascii) :
  ~ In c sep -> partition x sep = None ->
  partition (x ++ c :: sep ++ rest) sep = Some (x ++ [c], rest).
Proof.
  intros Hc. induction x as [|d x IH]; intros Hx.
  - simpl app. rewrite partition_step, partition_app_sep; auto.
    apply (startswith_fresh [] (sep ++ rest) sep c Hc startswith_nil).
  - apply partition_None_inv in Hx. destruct Hx as [F Hx].
    change ((d :: x) ++ c :: sep ++ rest) with (d :: x ++ c :: sep ++ rest).
    rewrite partition_step, IH; auto.
    apply (startswith_fresh (d :: x) (sep ++ rest) sep c Hc F).
Qed.

(** A leading character that is not in the separator stays in front of the
    first block. *)
Lemma partition_cons_fresh (c : ascii) (s : str) :
  ~ In c sep ->
  partition (c :: s) sep =
  match partition s sep with
  | Some (before, after) => Some (c :: before, after)
  | None => None
  end.
Proof.
  intros Hc. apply partition_step.
  apply (startswith_fresh [] s sep c Hc startswith_nil).
Qed.

End Split.

(** ** split, join *)

Section SplitJoin.

Variable sep : str.
Hypothesis sep_nonempty : sep <> [].

(** The fuel of [split] is enough: more of it changes nothing. *)
Lemma split_fuel_irrelevant (fuel1 fuel2 : nat) (s : str) :
  length s <= fuel1 -> length s <= fuel2 ->
  split_fuel fuel1 s sep = split_fuel fuel2 s sep.
Proof.
  assert (N : forall fuel, split_fuel fuel [] sep = [[]]).
  { intros [|fuel]; [reflexivity|].
    cbn [split_fuel]. now rewrite (partition_nil sep sep_nonempty). }
  revert fuel2 s. induction fuel1 as [|f1 IH]; intros fuel2 s H1 H2.
  - destruct s; [|simpl in H1; lia]. now rewrite !N.
  - destruct fuel2 as [|f2].
    + destruct s; [|simpl in H2; lia]. now rewrite !N.
    + cbn [split_fuel]. destruct (partition s sep) as [[a b]|] eqn:P; auto.
      pose proof (partition_shorter sep sep_nonempty _ _ _ P) as Hb.
      f_equal. apply IH; lia.
Qed.

Lemma split_fuel_enough (fuel : nat) (s : str) :
  length s <= fuel -> split_fuel fuel s sep = split s sep.
Proof. intros H. now apply split_fuel_irrelevant. Qed.

(** The two equations of [split]. *)
Lemma split_None (s : str) : partition s sep = None -> split s sep = [s].
Proof.
  intros P. unfold split. destruct (length s); simpl; auto. now rewrite P.
Qed.

Lemma split_Some (s a b : str) :
  partition s sep = Some (a, b) -> split s sep = a :: split b sep.
Proof.
  intros P. pose proof (partition_shorter sep sep_nonempty _ _ _ P) as Hb.
  unfold split at 1. destruct (length s) as [|n] eqn:E; [lia|].
  simpl. rewrite P. f_equal. apply split_fuel_enough. lia.
Qed.

Lemma split_nil : split [] sep = [[]].
Proof. reflexivity. Qed.

Lemma split_not_nil (s : str) : split s sep <> [].
Proof.
  destruct (partition s sep) as [[a b]|] eqn:P.
  - now rewrite (split_Some _ _ _ P).
  - now rewrite (split_None _ P).
Qed.

Lemma split_length (s : str) : 1 <= length (split s sep).
Proof.
  pose proof (split_not_nil s). destruct (split s sep); simpl; [congruence|lia].
Qed.

(** Induction on a text along the cuts of [split]. *)
Lemma split_ind (P : str -> Prop) :
  (forall s, partition s sep = None -> P s) ->
  (forall s a b, partition s sep = Some (a, b) -> P b -> P s) ->
  forall s, P s.
Proof.
  intros Hnone Hsome s.
  remember (length s) as n eqn:En. revert s En.
  induction n as [n IH] using lt_wf_ind. intros s ->.
  destruct (partition s sep) as [[a b]|] eqn:Ps; [|now apply Hnone].
  apply (Hsome s a b Ps).
  apply (IH (length b)); [|reflexivity].
  exact (partition_shorter sep sep_nonempty _ _ _ Ps).
Qed.

Lemma join_cons (x : str) (rest : list str) :
  rest <> [] -> join sep (x :: rest) = x ++ sep ++ join sep rest.
Proof. destruct rest; [congruence | reflexivity]. Qed.

(** Joining the blocks gives the text back. *)
Lemma join_split (s : str) : join sep (split s sep) = s.
Proof.
  induction s as [s P | s a b P IH] using split_ind.
  - now rewrite (split_None _ P).
  - rewrite (split_Some _ _ _ P), join_cons by apply split_not_nil.
    rewrite IH. symmetry. now apply (partition_Some sep sep_nonempty).
Qed.

(** Splitting the first [n] blocks joined gives these blocks back: what
    [trim_history] writes is read as the blocks it kept. *)
Lemma split_join_firstn (n : nat) (s : str) :
  split (join sep (firstn (S n) (split s sep))) sep
  = firstn (S n) (split s sep).
Proof.
  revert n. induction s as [s P | s a b P IH] using split_ind; intros n.
  - rewrite (split_None _ P). simpl. rewrite firstn_nil. simpl.
    now apply split_None.
  - rewrite (split_Some _ _ _ P). simpl firstn. destruct n as [|n].
    + simpl. apply split_None.
      exact (partition_before sep sep_nonempty _ _ _ P).
    + rewrite join_cons.
      * rewrite (split_Some (a ++ sep ++ join sep (firstn (S n) (split b sep)))
                   a (join sep (firstn (S n) (split b sep)))).
        -- now rewrite IH.
        -- exact (partition_prefix sep sep_nonempty _ _ _ _ P).
      * pose proof (split_not_nil b). destruct (split b sep);
          [congruence | discriminate].
Qed.

(** Every character of a block is a character of the text. *)
Lemma split_incl (s : str) :
  forall e, In e (split s sep) -> incl e s.
Proof.
  induction s as [s P | s a b P IH] using split_ind; intros e.
  - rewrite (split_None _ P). intros [<- | []]. apply incl_refl.
  - rewrite (split_Some _ _ _ P).
    pose proof (partition_Some sep sep_nonempty _ _ _ P) as Hs.
    intros [<- | H].
    + rewrite Hs. apply incl_appl, incl_refl.
    + rewrite Hs. apply incl_appr, incl_appr, IH, H.
Qed.

End SplitJoin.

(** ** The history file *)

Lemma collect_entries_eq (entries display_entries full : list str) :
  collect_entries entries display_entries full =
  (display_entries ++ map display_line (filter nonblank entries),
   full ++ map strip (filter nonblank entries)).
Proof.
  revert display_entries full.
  induction entries as [|entry rest IH]; intros d f; simpl.
  - now rewrite !app_nil_r.
  - change (truthy (strip entry)) with (nonblank entry).
    destruct (nonblank entry).
    + rewrite IH. simpl. now rewrite <- !app_assoc.
    + apply IH.
Qed.

Lemma blank_blocks (sep content : str) :
  sep <> [] -> strip content = [] -> filter nonblank (split content sep) = [].
Proof.
  intros Hsep Hc. apply strip_all_space in Hc.
  assert (H : Forall (fun e => nonblank e = false) (split content sep)).
  { apply Forall_forall. intros e He. unfold nonblank.
    apply truthy_false, strip_all_space, Forall_forall. intros c Hin.
    rewrite Forall_forall in Hc. apply Hc.
    exact (split_incl sep Hsep content e He c Hin). }
  induction H as [|e l He _ IH]; simpl; auto. now rewrite He.
Qed.

Section Manager.

Variable self : ClipboardManager.
Hypothesis separator_nonempty : separator self <> [].

Let sep := separator self.

(** The entries of the browser are the stripped non-blank blocks, in file
    order. *)
Lemma full_entries_blocks (file : str) :
  full_entries self file = map strip (filter nonblank (blocks self file)).
Proof.
  unfold full_entries, load_entries, blocks.
  destruct (truthy (strip file)) eqn:E; simpl.
  - rewrite collect_entries_eq. simpl.
    destruct (filter nonblank (split file (separator self))); reflexivity.
  - apply truthy_false in E.
    now rewrite (blank_blocks (separator self) file separator_nonempty E).
Qed.

Lemma full_entries_length (file : str) :
  length (full_entries self file) <= length (blocks self file).
Proof.
  rewrite full_entries_blocks, length_map. apply filter_length_le.
Qed.

Lemma full_entries_nil : full_entries self [] = [].
Proof. reflexivity. Qed.

(** [trim_history] keeps the first [max_entries] blocks. *)
Lemma trim_history_blocks (file : str) :
  1 <= max_entries self ->
  blocks self (trim_history self file)
  = firstn (max_entries self) (blocks self file).
Proof.
  unfold trim_history, blocks. intros Hm.
  destruct (max_entries self <? length (split file (separator self))) eqn:E.
  - destruct (max_entries self) as [|n]; [lia|].
    apply split_join_firstn; assumption.
  - apply Nat.ltb_ge in E. now rewrite firstn_all2.
Qed.

Lemma trim_history_bound (file : str) :
  length (full_entries self (trim_history self file)) <= max_entries self.
Proof.
  destruct (max_entries self) as [|n] eqn:Em.
  - unfold trim_history. rewrite Em.
    pose proof (split_length (separator self) separator_nonempty file) as L.
    destruct (0 <? length (split file (separator self))) eqn:E.
    + cbn [firstn join]. rewrite full_entries_nil. simpl. lia.
    + apply Nat.ltb_ge in E. lia.
  - etransitivity; [apply full_entries_length|].
    rewrite trim_history_blocks by lia. rewrite Em, length_firstn. lia.
Qed.

End Manager.

(** ** Bounded size *)

Section Bounded.

Variable self : ClipboardManager.
Hypothesis separator_nonempty : separator self <> [].

Lemma bounded_nil : bounded self [].
Proof. unfold bounded. rewrite full_entries_nil. simpl. lia. Qed.

(** [add_to_history] leaves the file as it is or writes a trimmed one. *)
Lemma add_to_history_file (xclip : run_outcome) (file file' : str) (b : bool) :
  add_to_history self xclip file = Ok (b, file') ->
  (b = false /\ file' = file) \/
  (b = true /\ exists content,
      get_clipboard_content xclip = Ok content /\ content <> [] /\
      strip (hd [] (blocks self file)) <> strip content /\
      file' = trim_history self
                (content ++ (newline :: separator self ++ [newline]) ++ file)).
Proof.
  unfold add_to_history, bind.
  destruct (get_clipboard_content xclip) as [content|e]; [|discriminate].
  destruct (truthy content) eqn:T; simpl.
  - destruct (truthy (split file (separator self))
              && str_eqb (strip (hd [] (split file (separator self))))
                         (strip content)) eqn:D.
    + intros H; inversion H; auto.
    + intros H; inversion H; subst. right. split; [reflexivity|].
      exists content. repeat split; auto.
      * now apply truthy_true.
      * apply andb_false_iff in D. destruct D as [D | D].
        -- apply truthy_false in D.
           now destruct (split_not_nil (separator self)
                           separator_nonempty file).
        -- now apply str_eqb_neq.
  - intros H; inversion H; auto.
Qed.

Lemma add_to_history_bounded (xclip : run_outcome) (file file' : str)
    (b : bool) :
  bounded self file -> add_to_history self xclip file = Ok (b, file') ->
  bounded self file'.
Proof.
  intros B H. apply add_to_history_file in H.
  destruct H as [[_ ->] | [_ (content & _ & _ & _ & ->)]]; auto.
  now apply trim_history_bound.
Qed.

Lemma menu_file (display full : list str) (answers : list choice)
    (s : session) :
  session_file (menu display full answers s) = session_file s \/
  session_file (menu display full answers s) = [].
Proof.
  revert s. induction answers as [|c rest IH]; intros s; [left; reflexivity|].
  destruct c as [|confirm|preview_num|[number|] xclip]; cbn [menu].
  - left; reflexivity.
  - destruct confirm; [right; reflexivity|].
    destruct (IH (print (Menu display) s)); auto.
  - destruct (IH (print (preview full preview_num) (print (Menu display) s)));
      auto.
  - destruct ((0 <=? number - 1)%Z && (number - 1 <? Z.of_nat (length full))%Z).
    + destruct (set_clipboard_content xclip) as [[|]|e];
        try (left; reflexivity).
      destruct (IH (pipe (nth (Z.to_nat (number - 1)) full [])
                      (print (Menu display) s))); auto.
    + destruct (IH (print Invalid_number (print (Menu display) s))); auto.
  - destruct (IH (print Enter_valid_number (print (Menu display) s))); auto.
Qed.

Lemma show_history_bounded (file : str) (answers : list choice) :
  bounded self file ->
  bounded self (session_file (show_history self file answers)).
Proof.
  intros B. unfold show_history.
  destruct (negb (truthy (strip file))); [exact B|].
  destruct (load_entries self file) as [[display full]|]; [|exact B].
  destruct (menu_file display full answers
              {| session_file := file; clipboard_calls := []; printed := [] |})
    as [-> | ->]; [exact B | apply bounded_nil].
Qed.

Lemma on_exception_file (e : exception) (st : monitor_state) :
  history_file (on_exception e st) = history_file st.
Proof.
  unfold on_exception. now destruct (max_retries <=? retry_count st + 1).
Qed.

Lemma monitor_round_bounded (t : tick) (st : monitor_state) :
  bounded self (history_file st) ->
  bounded self (history_file (monitor_round self t st)).
Proof.
  intros B. destruct t as [xclip xclip_add|]; [|exact B].
  unfold monitor_round.
  destruct (get_clipboard_content xclip) as [current|e];
    [|now rewrite on_exception_file].
  destruct (truthy current
            && negb (str_eqb current (last_content (set_retry_count 0 st))));
    [|exact B].
  cbn [history_file set_retry_count].
  destruct (add_to_history self xclip_add (history_file st))
    as [[added file']|e] eqn:A.
  - exact (add_to_history_bounded xclip_add (history_file st) file' added B A).
  - now rewrite on_exception_file.
Qed.

Lemma monitor_loop_bounded (ticks : list tick) (st : monitor_state) :
  bounded self (history_file st) ->
  bounded self (history_file (monitor_loop self ticks st)).
Proof.
  revert st. induction ticks as [|t rest IH]; intros st B; simpl; auto.
  destruct (running st); auto. now apply IH, monitor_round_bounded.
Qed.

Lemma main_with_bounded (a : action) (file : str) :
  bounded self file -> bounded self (main_with self a file).
Proof.
  intros B. destruct a as [xclip|answers|xclip_test ticks|]; simpl.
  - destruct (add_to_history self xclip file) as [[b file']|e] eqn:A; auto.
    exact (add_to_history_bounded xclip file file' b B A).
  - now apply show_history_bounded.
  - now apply monitor_loop_bounded.
  - apply bounded_nil.
Qed.

Lemma run_bounded (actions : list action) (file : str) :
  bounded self file -> bounded self (run self actions file).
Proof.
  unfold run. revert file.
  induction actions as [|a rest IH]; intros file B; simpl; auto.
  now apply IH, main_with_bounded.
Qed.

End Bounded.

(** C1. Whatever the program is run for (add, show, monitor, clear), any
    number of times in any order and whatever the clipboard holds, starting
    from an empty history file, the history never lists more than
    [max_entries] entries: it holds after each of the invocations. *)
Theorem history_length_bounded (self : ClipboardManager)
    (actions : list action) (k : nat) :
  separator self <> [] ->
  length (full_entries self (run self (firstn k actions) []))
  <= max_entries self.
Proof.
  intros Hsep. apply (run_bounded self Hsep). now apply bounded_nil.
Qed.

(** ** Adding an entry *)

Lemma existsb_not_In (c : ascii) (l : str) :
  existsb (Ascii.eqb c) l = false -> ~ In c l.
Proof.
  intros H Hin. assert (E : existsb (Ascii.eqb c) l = true).
  { apply existsb_exists. exists c. split; [exact Hin | apply Ascii.eqb_refl]. }
  congruence.
Qed.

Lemma init_well_formed : well_formed init.
Proof.
  repeat split.
  - discriminate.
  - apply existsb_not_In. reflexivity.
  - simpl. lia.
Qed.

Lemma contains_false (s sub : str) :
  contains s sub = false <-> partition s sub = None.
Proof.
  unfold contains. destruct (partition s sub); split; congruence.
Qed.

Section Adding.

Variable self : ClipboardManager.
Hypothesis self_well_formed : well_formed self.

Lemma separator_nonempty : separator self <> [].
Proof. exact (proj1 self_well_formed). Qed.

Lemma newline_fresh : ~ In newline (separator self).
Proof. exact (proj1 (proj2 self_well_formed)). Qed.

Lemma max_entries_pos : 1 <= max_entries self.
Proof. exact (proj2 (proj2 self_well_formed)). Qed.

Lemma add_to_history_completed (candidate file : str) :
  add_to_history self (CompletedProcess 0 candidate) file
  = Ok (add self candidate file).
Proof.
  unfold add.
  destruct (add_to_history self (CompletedProcess 0 candidate) file) eqn:E;
    [reflexivity|].
  unfold add_to_history in E. simpl in E.
  destruct (negb (truthy candidate)); [discriminate|].
  destruct (truthy (split file (separator self)) && _); discriminate.
Qed.

(** The value [add] returns. *)
Lemma add_fst (candidate file : str) :
  fst (add self candidate file) =
  truthy candidate
  && negb (str_eqb (strip (hd [] (blocks self file))) (strip candidate)).
Proof.
  unfold add, add_to_history, blocks. simpl.
  destruct (truthy candidate); simpl; [|reflexivity].
  pose proof (split_not_nil (separator self) separator_nonempty file) as N.
  destruct (split file (separator self)) as [|e l]; [congruence|]. simpl.
  destruct (str_eqb (strip e) (strip candidate)); reflexivity.
Qed.

(** The file [add] leaves. *)
Lemma add_snd (candidate file : str) :
  snd (add self candidate file) =
  if fst (add self candidate file)
  then trim_history self
         (candidate ++ (newline :: separator self ++ [newline]) ++ file)
  else file.
Proof.
  unfold add, add_to_history. simpl.
  destruct (truthy candidate); simpl; [|reflexivity].
  destruct (truthy (split file (separator self)) && _); reflexivity.
Qed.

Lemma blocks_cons_newline (file : str) :
  blocks self (newline :: file) =
  (newline :: hd [] (blocks self file)) :: tl (blocks self file).
Proof.
  unfold blocks.
  pose proof (partition_cons_fresh (separator self) separator_nonempty
                newline file newline_fresh) as P.
  destruct (partition file (separator self)) as [[a b]|] eqn:E.
  - rewrite (split_Some _ separator_nonempty _ _ _ P).
    now rewrite (split_Some _ separator_nonempty _ _ _ E).
  - rewrite (split_None _ _ P). now rewrite (split_None _ _ E).
Qed.

(** The blocks of what [add_to_history] writes before trimming. *)
Lemma blocks_prepend (content file : str) :
  contains content (separator self) = false ->
  blocks self (content ++ (newline :: separator self ++ [newline]) ++ file) =
  (content ++ [newline]) ::
  (newline :: hd [] (blocks self file)) :: tl (blocks self file).
Proof.
  intros C. apply contains_false in C.
  rewrite <- blocks_cons_newline. unfold blocks.
  apply (split_Some _ separator_nonempty).
  replace (content ++ (newline :: separator self ++ [newline]) ++ file)
    with (content ++ newline :: separator self ++ newline :: file)
    by (simpl; now rewrite <- app_assoc).
  apply partition_fresh;
    [apply separator_nonempty | apply newline_fresh | exact C].
Qed.

(** A stored entry is the first block, followed by a line feed. *)
Lemma add_blocks (candidate file : str) :
  contains candidate (separator self) = false ->
  fst (add self candidate file) = true ->
  blocks self (snd (add self candidate file)) =
  firstn (max_entries self)
    ((candidate ++ [newline]) ::
     (newline :: hd [] (blocks self file)) :: tl (blocks self file)).
Proof.
  intros C T. rewrite add_snd, T.
  rewrite (trim_history_blocks self separator_nonempty)
    by exact max_entries_pos.
  now rewrite blocks_prepend.
Qed.

Lemma add_head (candidate file : str) :
  contains candidate (separator self) = false ->
  fst (add self candidate file) = true ->
  hd [] (blocks self (snd (add self candidate file))) = candidate ++ [newline].
Proof.
  intros C T. rewrite add_blocks by assumption.
  pose proof max_entries_pos as M.
  destruct (max_entries self); [lia | reflexivity].
Qed.

(** Adding again what was just added does nothing. *)
Lemma add_again (candidate file : str) :
  contains candidate (separator self) = false ->
  add self candidate (snd (add self candidate file))
  = (false, snd (add self candidate file)).
Proof.
  intros C.
  assert (F : fst (add self candidate (snd (add self candidate file))) = false).
  { rewrite add_fst. destruct (fst (add self candidate file)) eqn:T.
    - rewrite add_head by assumption.
      rewrite strip_snoc_space by apply isspace_newline.
      rewrite str_eqb_refl. apply andb_false_r.
    - rewrite add_snd, T. rewrite <- add_fst. exact T. }
  pose proof (add_snd candidate (snd (add self candidate file))) as S.
  rewrite F in S.
  destruct (add self candidate (snd (add self candidate file))) as [b f2].
  simpl in F, S. now subst.
Qed.

(** After a successful [add] of a candidate that is not blank, the browser
    lists the candidate, stripped, first. *)
Lemma add_first_entry (candidate file : str) :
  contains candidate (separator self) = false ->
  strip candidate <> [] ->
  fst (add self candidate file) = true ->
  hd_error (full_entries self (snd (add self candidate file)))
  = Some (strip candidate).
Proof.
  intros C N T.
  rewrite (full_entries_blocks self separator_nonempty).
  rewrite add_blocks by assumption.
  pose proof max_entries_pos as M.
  destruct (max_entries self) as [|n]; [lia|]. simpl.
  unfold nonblank at 1.
  rewrite strip_snoc_space by apply isspace_newline.
  apply truthy_true in N. rewrite N. simpl.
  now rewrite strip_snoc_space by apply isspace_newline.
Qed.

End Adding.

(** C1 at work: two adds and a clear with the program's own manager. *)
Lemma history_length_bounded_witness :
  separator init <> [] /\
  length (full_entries init
            (run init (firstn 2 [Action_add (CompletedProcess 0 (lit "hello"));
                                 Action_add (CompletedProcess 0 (lit "world"));
                                 Action_clear]) []))
  <= max_entries init.
Proof.
  split; [discriminate|].
  apply (history_length_bounded init
           [Action_add (CompletedProcess 0 (lit "hello"));
            Action_add (CompletedProcess 0 (lit "world")); Action_clear] 2).
  discriminate.
Defined.

(** ** Rejected candidates *)

(** An empty candidate is rejected and nothing is written. *)
Lemma add_empty (self : ClipboardManager) (file : str) :
  add self [] file = (false, file).
Proof. reflexivity. Qed.

(** A candidate that strips to the same text as the first block is
    rejected and nothing is written. *)
Lemma add_duplicate (self : ClipboardManager) (candidate file : str) :
  separator self <> [] ->
  strip (hd [] (blocks self file)) = strip candidate ->
  add self candidate file = (false, file).
Proof.
  intros Hsep E. unfold add, add_to_history, blocks in *. simpl.
  destruct (truthy candidate); simpl; [|reflexivity].
  pose proof (split_not_nil (separator self) Hsep file) as N.
  destruct (split file (separator self)) as [|e l]; [congruence|].
  simpl in *. rewrite E, str_eqb_refl. reflexivity.
Qed.

(** On an empty history a whitespace-only candidate is rejected: it strips
    to the empty text, as the only block of the empty file does. *)
Lemma add_blank_to_empty (self : ClipboardManager) (candidate : str) :
  separator self <> [] -> strip candidate = [] ->
  add self candidate [] = (false, []).
Proof.
  intros Hsep E. apply add_duplicate; auto.
Qed.

(** C2 (the code departs from the claim). With "a" in the history, adding
    the whitespace-only text of three spaces returns true and writes it to
    the file as a new first block; with five entries in the history, the
    oldest of them is dropped for it, and the browser lists four. *)
Theorem add_whitespace_only_is_stored :
  let blank := lit "   " in
  let file := adds init [lit "a"] [] in
  let full := adds init [lit "a"; lit "b"; lit "c"; lit "d"; lit "e"] [] in
  strip blank = [] /\
  fst (add init blank file) = true /\
  snd (add init blank file) <> file /\
  full_entries init full = [lit "e"; lit "d"; lit "c"; lit "b"; lit "a"] /\
  fst (add init blank full) = true /\
  full_entries init (snd (add init blank full))
  = [lit "e"; lit "d"; lit "c"; lit "b"].
Proof.
  vm_compute. repeat split; try reflexivity. discriminate.
Qed.

(** ** Idempotence *)

(** C3 as stated fails: a candidate with the separator inside is cut in two
    blocks, its first block is not the candidate, and the second add stores
    it again. *)
Lemma add_twice_with_separator_inside :
  let x := lit "a---CLIPBOARD_ENTRY_SEPARATOR---b" in
  let after_first := snd (add init x []) in
  fst (add init x after_first) = true /\
  snd (add init x after_first) <> after_first.
Proof.
  vm_compute. split; [reflexivity | discriminate].
Qed.

(** C3, amended. For every history file and every candidate that does not
    contain the separator, adding the candidate a second time right after
    the first returns false and leaves the file as the first add left it. *)
Theorem add_twice (file x : str) :
  contains x (separator init) = false ->
  add init x (snd (add init x file)) = (false, snd (add init x file)).
Proof.
  intros C. now apply (add_again init init_well_formed).
Qed.

Lemma add_twice_witness :
  contains (lit "hello") (separator init) = false /\
  add init (lit "hello") (snd (add init (lit "hello") []))
  = (false, snd (add init (lit "hello") [])).
Proof.
  split; [reflexivity | apply (add_twice [] (lit "hello")); reflexivity].
Defined.

(** ** Recency *)

(** C7 as stated fails: a line copied with its line end is stored, and
    listed without the line end. *)
Lemma add_lists_stripped :
  let x := lit "hello" ++ [newline] in
  fst (add init x []) = true /\
  hd_error (full_entries init (snd (add init x []))) = Some (lit "hello") /\
  hd_error (full_entries init (snd (add init x []))) <> Some x.
Proof.
  vm_compute. repeat split; discriminate.
Qed.

(** A candidate with the separator inside is listed by its first part. *)
Lemma add_lists_first_part :
  let x := lit "a---CLIPBOARD_ENTRY_SEPARATOR---b" in
  fst (add init x []) = true /\
  full_entries init (snd (add init x [])) = [lit "a"; lit "b"].
Proof. vm_compute. split; reflexivity. Qed.

(** C7, amended. For every history file and every candidate that is not
    whitespace-only and does not contain the separator, when add returns
    true the first entry listed is the candidate stripped of leading and
    trailing whitespace. *)
Theorem add_is_listed_first (file x : str) :
  contains x (separator init) = false ->
  strip x <> [] ->
  fst (add init x file) = true ->
  hd_error (full_entries init (snd (add init x file))) = Some (strip x).
Proof.
  intros C N T. now apply (add_first_entry init init_well_formed).
Qed.

Lemma add_is_listed_first_witness :
  let x := lit "hello" ++ [newline] in
  hd_error (full_entries init (snd (add init x []))) = Some (strip x).
Proof.
  apply (add_is_listed_first [] (lit "hello" ++ [newline]));
    [reflexivity | vm_compute; discriminate | reflexivity].
Defined.

(** ** Eviction *)

Lemma strip_framed (x : str) : strip (newline :: x ++ [newline]) = strip x.
Proof.
  rewrite strip_cons_space by apply isspace_newline.
  apply strip_snoc_space, isspace_newline.
Qed.

(** Adding a plain text that is not the one on top stores it. *)
Lemma add_plain (self : ClipboardManager) (x file : str) :
  well_formed self -> plain self x ->
  strip (hd [] (blocks self file)) <> x ->
  blocks self (snd (add self x file)) =
  firstn (max_entries self)
    ((x ++ [newline]) ::
     (newline :: hd [] (blocks self file)) :: tl (blocks self file)).
Proof.
  intros W (N & S & C) D. apply add_blocks; auto.
  rewrite add_fst by exact W. rewrite S.
  apply truthy_true in N. rewrite N.
  apply str_eqb_neq in D. now rewrite D.
Qed.

(** C4 as stated fails. The six contents "A", "A " (with a space at the
    end), "C", "D", "E", "F" are distinct, but the second strips to the
    first and is rejected as a duplicate of it: five entries are stored,
    nothing is evicted, and the browser lists F, E, D, C, A. *)
Lemma six_distinct_adds_keep_the_oldest :
  let contents := [lit "A"; lit "A "; lit "C"; lit "D"; lit "E"; lit "F"] in
  NoDup contents /\
  fst (add init (lit "A ") (adds init [lit "A"] [])) = false /\
  full_entries init (adds init contents [])
  = [lit "F"; lit "E"; lit "D"; lit "C"; lit "A"] /\
  full_entries init (adds init contents [])
  <> [lit "F"; lit "E"; lit "D"; lit "C"; lit "A "].
Proof.
  split; [|vm_compute; repeat split; discriminate].
  repeat (apply NoDup_cons; [simpl; intuition discriminate |]).
  apply NoDup_nil.
Qed.

(** C4, amended. Six adds of distinct texts A, B, C, D, E, F on an empty
    history, with the program's manager (five entries), each of the texts
    non-empty, without whitespace at either end and without the separator
    inside: the browser lists F, E, D, C, B; A is gone. *)
Theorem six_adds_evict_the_oldest (a b c d e f : str) :
  Forall (plain init) [a; b; c; d; e; f] ->
  NoDup [a; b; c; d; e; f] ->
  full_entries init (adds init [a; b; c; d; e; f] []) = [f; e; d; c; b].
Proof.
  intros P D.
  rewrite !Forall_cons_iff in P.
  destruct P as (Pa & Pb & Pc & Pd & Pe & Pf & _).
  assert (Hab : a <> b /\ b <> c /\ c <> d /\ d <> e /\ e <> f).
  { repeat match goal with
           | H : NoDup (_ :: _) |- _ => inversion H; clear H; subst
           end.
    repeat split; intros ->; simpl in *; tauto. }
  destruct Hab as (Hab & Hbc & Hcd & Hde & Hef).
  pose proof init_well_formed as W.
  unfold adds. cbn [fold_left].
  set (f1 := snd (add init a [])).
  set (f2 := snd (add init b f1)).
  set (f3 := snd (add init c f2)).
  set (f4 := snd (add init d f3)).
  set (f5 := snd (add init e f4)).
  set (f6 := snd (add init f f5)).
  assert (B1 : blocks init f1 = [a ++ [newline]; [newline]]).
  { unfold f1. rewrite add_plain; auto.
    change (blocks init []) with [@nil ascii]. cbn [hd].
    change (strip []) with (@nil ascii). destruct Pa as [N _]. congruence. }
  assert (B2 : blocks init f2
               = [b ++ [newline]; newline :: a ++ [newline]; [newline]]).
  { unfold f2. rewrite add_plain; auto.
    - now rewrite B1.
    - rewrite B1. cbn [hd]. rewrite strip_snoc_space by apply isspace_newline.
      destruct Pa as (_ & -> & _). exact Hab. }
  assert (B3 : blocks init f3
               = [c ++ [newline]; newline :: b ++ [newline];
                  newline :: a ++ [newline]; [newline]]).
  { unfold f3. rewrite add_plain; auto.
    - now rewrite B2.
    - rewrite B2. cbn [hd]. rewrite strip_snoc_space by apply isspace_newline.
      destruct Pb as (_ & -> & _). exact Hbc. }
  assert (B4 : blocks init f4
               = [d ++ [newline]; newline :: c ++ [newline];
                  newline :: b ++ [newline]; newline :: a ++ [newline];
                  [newline]]).
  { unfold f4. rewrite add_plain; auto.
    - now rewrite B3.
    - rewrite B3. cbn [hd]. rewrite strip_snoc_space by apply isspace_newline.
      destruct Pc as (_ & -> & _). exact Hcd. }
  assert (B5 : blocks init f5
               = [e ++ [newline]; newline :: d ++ [newline];
                  newline :: c ++ [newline]; newline :: b ++ [newline];
                  newline :: a ++ [newline]]).
  { unfold f5. rewrite add_plain; auto.
    - now rewrite B4.
    - rewrite B4. cbn [hd]. rewrite strip_snoc_space by apply isspace_newline.
      destruct Pd as (_ & -> & _). exact Hde. }
  assert (B6 : blocks init f6
               = [f ++ [newline]; newline :: e ++ [newline];
                  newline :: d ++ [newline]; newline :: c ++ [newline];
                  newline :: b ++ [newline]]).
  { unfold f6. rewrite add_plain; auto.
    - now rewrite B5.
    - rewrite B5. cbn [hd]. rewrite strip_snoc_space by apply isspace_newline.
      destruct Pe as (_ & -> & _). exact Hef. }
  rewrite (full_entries_blocks init (proj1 W)), B6.
  cbn [filter]. unfold nonblank.
  rewrite !strip_framed, strip_snoc_space by apply isspace_newline.
  destruct Pb as (N2 & S2 & _), Pc as (N3 & S3 & _), Pd as (N4 & S4 & _),
    Pe as (N5 & S5 & _), Pf as (N6 & S6 & _).
  rewrite S2, S3, S4, S5, S6.
  apply truthy_true in N2, N3, N4, N5, N6. rewrite N2, N3, N4, N5, N6.
  cbn [map]. rewrite !strip_framed, strip_snoc_space by apply isspace_newline.
  now rewrite S2, S3, S4, S5, S6.
Qed.

Lemma six_adds_evict_the_oldest_witness :
  full_entries init
    (adds init [lit "A"; lit "B"; lit "C"; lit "D"; lit "E"; lit "F"] [])
  = [lit "F"; lit "E"; lit "D"; lit "C"; lit "B"].
Proof.
  apply (six_adds_evict_the_oldest
           (lit "A") (lit "B") (lit "C") (lit "D") (lit "E") (lit "F")).
  - repeat (apply Forall_cons;
            [split; [discriminate | split; reflexivity] |]).
    apply Forall_nil.
  - repeat (apply NoDup_cons; [simpl; intuition discriminate |]).
    apply NoDup_nil.
Defined.

(** ** Selection *)



(** ** Reading the clipboard *)

(** C9 as stated fails. The read is not total: when running xclip raises
    an exception that is not a subprocess error (OSError when there is no
    xclip to run, UnicodeDecodeError when its output is not text),
    [get_clipboard_content] does not return; the exception leaves it. *)
Lemma get_clipboard_content_can_raise :
  get_clipboard_content (Raises OSError) = Raise OSError /\
  get_clipboard_content (Raises UnicodeDecodeError)
  = Raise UnicodeDecodeError /\
  (forall text, get_clipboard_content (Raises OSError) <> Ok text).
Proof. repeat split; discriminate. Qed.

(** C9, amended. When xclip exits with a status other than 0, or running it
    ends in a subprocess error or in a timeout, [get_clipboard_content]
    returns the empty text and raises nothing: what it returns is what it
    returns for an empty clipboard. *)
Theorem failed_read_reads_empty (xclip : run_outcome) :
  failed_read xclip ->
  get_clipboard_content xclip = Ok [] /\
  get_clipboard_content xclip = get_clipboard_content (CompletedProcess 0 []).
Proof.
  intros [returncode stdout H | |]; simpl; auto.
  apply Z.eqb_neq in H. rewrite H. auto.
Qed.

Lemma failed_read_reads_empty_witness :
  get_clipboard_content (Raises TimeoutExpired) = Ok [] /\
  get_clipboard_content (CompletedProcess 1 (lit "text")) = Ok [].
Proof.
  split.
  - apply (proj1 (failed_read_reads_empty (Raises TimeoutExpired)
                    failed_timeout)).
  - apply (proj1 (failed_read_reads_empty (CompletedProcess 1 (lit "text"))
                    (failed_exit 1 (lit "text") ltac:(discriminate)))).
Defined.

(** An exception that is not a subprocess error leaves
    [get_clipboard_content]: it is the one the monitor counts. *)
Lemma get_clipboard_content_raises (xclip : run_outcome) (e : exception) :
  get_clipboard_content xclip = Raise e <->
  xclip = Raises e /\ is_SubprocessError e = false.
Proof.
  destruct xclip as [returncode stdout | e']; simpl.
  - split; [discriminate | intros [H _]; discriminate].
  - destruct (is_SubprocessError e') eqn:E.
    + split; [discriminate | intros [H F]; inversion H; congruence].
    + split; [intros H; inversion H; subst; auto
             | intros [H _]; inversion H; reflexivity].
Qed.

(** ** What the browser lists *)

(** C10. The browser lists the blocks of the file that are not
    whitespace-only, each stripped, in file order: no entry listed is empty
    or has whitespace at either end. *)
Theorem list_is_stripped_blocks (self : ClipboardManager) (file : str) :
  separator self <> [] ->
  full_entries self file = map strip (filter nonblank (blocks self file)) /\
  Forall (fun entry => entry <> [] /\ strip entry = entry)
    (full_entries self file).
Proof.
  intros Hsep. rewrite (full_entries_blocks self Hsep). split; [reflexivity|].
  apply Forall_forall. intros entry Hin.
  apply in_map_iff in Hin. destruct Hin as (block & <- & Hb).
  apply filter_In in Hb. destruct Hb as [_ Hb].
  split; [now apply truthy_true | apply strip_idem].
Qed.

Lemma list_is_stripped_blocks_witness :
  let file := lit "  kept  ---CLIPBOARD_ENTRY_SEPARATOR---   " in
  separator init <> [] /\
  full_entries init file = map strip (filter nonblank (blocks init file)) /\
  Forall (fun entry => entry <> [] /\ strip entry = entry)
    (full_entries init file).
Proof.
  intros file.
  assert (H : separator init <> []) by discriminate.
  split; [exact H | exact (list_is_stripped_blocks init file H)].
Defined.

(** ** The monitor loop *)

(** A read that returns resets the counter and the loop goes on, whatever
    [add_to_history] then does. *)
Lemma monitor_round_read_returns (self : ClipboardManager)
    (xclip xclip_add : run_outcome) (st : monitor_state) (content : str) :
  get_clipboard_content xclip = Ok content ->
  retry_count (monitor_round self (Poll xclip xclip_add) st) <= 1 /\
  running (monitor_round self (Poll xclip xclip_add) st) = true.
Proof.
  intros R. unfold monitor_round. rewrite R.
  destruct (truthy content
            && negb (str_eqb content (last_content (set_retry_count 0 st))));
    [|simpl; auto].
  destruct (add_to_history self xclip_add
              (history_file (set_retry_count 0 st))) as [[added file']|e];
    simpl; auto.
Qed.

(** A read that raises adds one to the counter, and the loop is left when
    that makes [max_retries]. *)
Lemma monitor_round_read_raises (self : ClipboardManager)
    (xclip xclip_add : run_outcome) (st : monitor_state) (e : exception) :
  get_clipboard_content xclip = Raise e ->
  retry_count (monitor_round self (Poll xclip xclip_add) st)
  = retry_count st + 1 /\
  running (monitor_round self (Poll xclip xclip_add) st)
  = (retry_count st + 1 <? max_retries).
Proof.
  intros R. unfold monitor_round, on_exception. rewrite R.
  destruct (max_retries <=? retry_count st + 1) eqn:E; simpl; split; auto;
    symmetry.
  - apply Nat.ltb_ge. now apply Nat.leb_le.
  - apply Nat.ltb_lt. now apply Nat.leb_gt.
Qed.

(** Five reads in a row that raise an exception other than a subprocess
    error, such as OSError when there is no xclip to run, end the loop with
    "Too many errors"; four do not. *)
Lemma monitor_stops_after_five_raised_reads (xclip_test xclip_add : run_outcome)
    (file : str) :
  let failing := Poll (Raises OSError) xclip_add in
  let after4 := monitor init xclip_test file (repeat failing 4) in
  let after5 := monitor init xclip_test file (repeat failing 5) in
  running after4 = true /\ retry_count after4 = 4 /\
  running after5 = false /\ retry_count after5 = 5 /\
  last (log after5) Monitor_started = Too_many_errors 5.
Proof.
  unfold monitor, monitor_start.
  destruct (get_clipboard_content xclip_test); simpl; auto 10.
Qed.

Lemma monitor_round_timeout (self : ClipboardManager) (xclip_add : run_outcome)
    (st : monitor_state) :
  monitor_round self (Poll (Raises TimeoutExpired) xclip_add) st =
  {| last_content := last_content st; retry_count := 0;
     history_file := history_file st; log := log st;
     sleeps := sleeps st ++ [1]; add_calls := add_calls st;
     running := true |}.
Proof. reflexivity. Qed.

Lemma monitor_loop_timeouts (self : ClipboardManager) (xclip_add : run_outcome)
    (n : nat) (st : monitor_state) :
  running st = true -> retry_count st = 0 ->
  let st' :=
    monitor_loop self (repeat (Poll (Raises TimeoutExpired) xclip_add) n) st in
  running st' = true /\ retry_count st' = 0 /\ log st' = log st /\
  history_file st' = history_file st.
Proof.
  revert st. induction n as [|n IH]; intros st R C;
    cbn [repeat monitor_loop]; auto.
  rewrite R, monitor_round_timeout.
  apply (IH {| last_content := last_content st; retry_count := 0;
               history_file := history_file st; log := log st;
               sleeps := sleeps st ++ [1]; add_calls := add_calls st;
               running := true |}); reflexivity.
Qed.

(** C5 (the code departs from the claim). A timeout of xclip is a failed
    read, but [get_clipboard_content] turns it into an empty text, and the
    loop takes that for a read that went well: after any number of
    timeouts in a row, five among them, the counter is 0, the loop is still
    running and "Too many errors" is not in the log. *)
Theorem monitor_survives_timeouts (n : nat) (xclip_test xclip_add : run_outcome)
    (file : str) :
  let timeout := Poll (Raises TimeoutExpired) xclip_add in
  let st := monitor init xclip_test file (repeat timeout n) in
  failed_read (Raises TimeoutExpired) /\
  running st = true /\ retry_count st = 0 /\
  (forall k, ~ In (Too_many_errors k) (log st)).
Proof.
  intros timeout st. split; [constructor|].
  destruct (monitor_loop_timeouts init xclip_add n
              (monitor_start xclip_test file) eq_refl eq_refl)
    as (R & C & L & _).
  fold timeout in R, C, L.
  fold (monitor init xclip_test file (repeat timeout n)) in R, C, L.
  fold st in R, C, L. repeat split; auto.
  intros k. rewrite L. unfold monitor_start. simpl.
  destruct (get_clipboard_content xclip_test); simpl; intuition discriminate.
Qed.

(** C6 as stated fails. With "a" observed last, a read of "a" followed by
    a line feed is the same text once trimmed, and [add_to_history] is
    called all the same; and a read that gives the empty text does not
    become the last observed content. *)
Lemma monitor_compares_untrimmed :
  let a := CompletedProcess 0 (lit "a") in
  let a_newline := CompletedProcess 0 (lit "a" ++ [newline]) in
  let nothing := CompletedProcess 0 [] in
  let st := monitor init a [] [Poll a a] in
  last_content st = lit "a" /\
  strip (lit "a" ++ [newline]) = strip (last_content st) /\
  add_calls (monitor_round init (Poll a_newline a_newline) st)
  = add_calls st + 1 /\
  get_clipboard_content nothing = Ok [] /\
  last_content (monitor_round init (Poll nothing nothing) st) <> [].
Proof.
  vm_compute. repeat split. discriminate.
Qed.

(** C6, amended. In a round of the monitor whose read of the clipboard
    returns the text [content]: [add_to_history] is called exactly when
    [content] is not empty and is not, character for character, the last
    observed content; when [content] is not empty and no exception leaves
    [add_to_history], the last observed content is [content] after the
    round, whether something was stored or not; when [content] is empty the
    last observed content stays. *)
Theorem monitor_round_observes (xclip xclip_add : run_outcome)
    (st : monitor_state) (content : str) :
  get_clipboard_content xclip = Ok content ->
  let st' := monitor_round init (Poll xclip xclip_add) st in
  (add_calls st' = add_calls st + 1 <->
   content <> [] /\ content <> last_content st) /\
  (add_calls st' = add_calls st \/ add_calls st' = add_calls st + 1) /\
  (content <> [] ->
   (exists r, add_to_history init xclip_add (history_file st) = Ok r) ->
   last_content st' = content) /\
  (content = [] -> last_content st' = last_content st).
Proof.
  intros R st'. unfold st', monitor_round. rewrite R.
  cbn [set_retry_count last_content history_file add_calls].
  destruct (truthy content) eqn:T; cbn [andb].
  - apply truthy_true in T.
    destruct (str_eqb content (last_content st)) eqn:E; cbn [negb].
    + apply str_eqb_eq in E. cbn. repeat split; auto; try lia; try tauto.
    + apply str_eqb_neq in E.
      destruct (add_to_history init xclip_add (history_file st))
        as [[added file']|e].
      * cbn. repeat split; auto; try tauto.
      * unfold on_exception. cbn.
        repeat split; auto; try tauto; try (intros _ [r H]; discriminate).
  - apply truthy_false in T. cbn. repeat split; auto; try lia; tauto.
Qed.

Lemma monitor_round_observes_witness :
  let a := CompletedProcess 0 (lit "a") in
  let st := monitor_start a [] in
  get_clipboard_content a = Ok (lit "a") /\
  (add_calls (monitor_round init (Poll a a) st) = add_calls st + 1 <->
   lit "a" <> [] /\ lit "a" <> last_content st).
Proof.
  intros a st. split; [reflexivity|].
  exact (proj1 (monitor_round_observes a a st (lit "a") eq_refl)).
Defined.

(** * Further properties of the history file *)

(** ** trim_history *)

Lemma join_firstn_prefix (sep : str) (n : nat) (l : list str) :
  exists rest, join sep l = join sep (firstn n l) ++ rest.
Proof.
  revert n. induction l as [|x l IH]; intros n.
  - exists []. now rewrite firstn_nil.
  - destruct n as [|n]; [exists (join sep (x :: l)); reflexivity|].
    cbn [firstn]. destruct l as [|y l].
    + exists []. rewrite firstn_nil. simpl. now rewrite app_nil_r.
    + destruct n as [|n].
      * exists (sep ++ join sep (y :: l)). reflexivity.
      * destruct (IH (S n)) as [rest E]. exists rest.
        change (join sep (x :: y :: l)) with (x ++ sep ++ join sep (y :: l)).
        change (join sep (x :: firstn (S n) (y :: l)))
          with (x ++ sep ++ join sep (firstn (S n) (y :: l))).
        rewrite E. now rewrite <- !app_assoc.
Qed.

(** X1. [trim_history] keeps the first [max_entries] blocks of the file,
    in order, and nothing else. *)
Theorem trim_history_keeps_first (self : ClipboardManager) (file : str) :
  separator self <> [] -> 1 <= max_entries self ->
  blocks self (trim_history self file)
  = firstn (max_entries self) (blocks self file).
Proof. intros Hsep Hm. now apply trim_history_blocks. Qed.

Lemma trim_history_keeps_first_witness :
  let file := adds init [lit "a"; lit "b"; lit "c"; lit "d"; lit "e"] []
              ++ lit "---CLIPBOARD_ENTRY_SEPARATOR---old" in
  separator init <> [] /\ 1 <= max_entries init /\
  blocks init (trim_history init file)
  = firstn (max_entries init) (blocks init file).
Proof.
  intros file.
  assert (H1 : separator init <> []) by discriminate.
  assert (H2 : 1 <= max_entries init) by (simpl; lia).
  split; [exact H1 | split; [exact H2|]].
  exact (trim_history_keeps_first init file H1 H2).
Defined.

(** X2. [trim_history] only cuts the end of the file off: what it leaves
    is a prefix of what was there. *)
Theorem trim_history_truncates (self : ClipboardManager) (file : str) :
  separator self <> [] ->
  exists dropped, file = trim_history self file ++ dropped.
Proof.
  intros Hsep. unfold trim_history.
  destruct (max_entries self <? length (split file (separator self))).
  - destruct (join_firstn_prefix (separator self) (max_entries self)
                (split file (separator self))) as [rest E].
    exists rest. rewrite <- E. symmetry. now apply join_split.
  - exists []. now rewrite app_nil_r.
Qed.

Lemma trim_history_truncates_witness :
  let file := adds init [lit "a"; lit "b"; lit "c"; lit "d"; lit "e"] []
              ++ lit "---CLIPBOARD_ENTRY_SEPARATOR---old" in
  separator init <> [] /\
  exists dropped, file = trim_history init file ++ dropped.
Proof.
  intros file.
  assert (H1 : separator init <> []) by discriminate.
  split; [exact H1 | exact (trim_history_truncates init file H1)].
Defined.

(** X3. Trimming a trimmed file changes nothing. *)
Theorem trim_history_idempotent (self : ClipboardManager) (file : str) :
  separator self <> [] ->
  trim_history self (trim_history self file) = trim_history self file.
Proof.
  intros Hsep. destruct (max_entries self) as [|n] eqn:Em.
  - unfold trim_history. rewrite Em.
    pose proof (split_length (separator self) Hsep file) as L.
    destruct (0 <? length (split file (separator self))) eqn:E;
      [reflexivity | apply Nat.ltb_ge in E; lia].
  - unfold trim_history at 1.
    fold (blocks self (trim_history self file)).
    rewrite (trim_history_blocks self Hsep) by lia.
    rewrite length_firstn.
    destruct (max_entries self <?
              Nat.min (max_entries self) (length (blocks self file))) eqn:E;
      [apply Nat.ltb_lt in E; lia | reflexivity].
Qed.

Lemma trim_history_idempotent_witness :
  let file := adds init [lit "a"; lit "b"; lit "c"; lit "d"; lit "e"] []
              ++ lit "---CLIPBOARD_ENTRY_SEPARATOR---old" in
  separator init <> [] /\
  trim_history init (trim_history init file) = trim_history init file.
Proof.
  intros file.
  assert (H1 : separator init <> []) by discriminate.
  split; [exact H1 | exact (trim_history_idempotent init file H1)].
Defined.

(** ** add_to_history *)

(** X4. When the read of the clipboard fails (xclip exits with a status
    other than 0, a subprocess error, a timeout), [add_to_history] returns
    False and the history file stays as it is. *)
Theorem add_to_history_failed_read (self : ClipboardManager)
    (xclip : run_outcome) (file : str) :
  failed_read xclip -> add_to_history self xclip file = Ok (false, file).
Proof.
  intros [returncode stdout H | |]; unfold add_to_history; simpl; auto.
  apply Z.eqb_neq in H. now rewrite H.
Qed.

Lemma add_to_history_failed_read_witness :
  add_to_history init (Raises TimeoutExpired) (lit "kept")
  = Ok (false, lit "kept").
Proof.
  exact (add_to_history_failed_read init (Raises TimeoutExpired) (lit "kept")
           failed_timeout).
Defined.

Section Storing.

Variable self : ClipboardManager.
Hypothesis self_well_formed : well_formed self.

Variable candidate : str.
Hypothesis candidate_clean : contains candidate (separator self) = false.

Lemma add_changes_file (file : str) :
  fst (add self candidate file) = true <-> snd (add self candidate file) <> file.
Proof.
  split.
  - intros T E.
    pose proof (add_head self self_well_formed candidate file
                  candidate_clean T) as Hd.
    rewrite E in Hd.
    rewrite (add_fst self self_well_formed) in T.
    apply andb_true_iff in T. destruct T as [_ T].
    rewrite Hd, strip_snoc_space, str_eqb_refl in T
      by apply isspace_newline.
    discriminate.
  - intros N. destruct (fst (add self candidate file)) eqn:T; auto.
    exfalso. apply N. now rewrite add_snd, T.
Qed.

(** The blocks that follow the new one: those of the file before, with a
    line feed in front of the first. *)
Lemma shifted_blocks_entries (file : str) :
  map strip
    (filter nonblank
       ((newline :: hd [] (blocks self file)) :: tl (blocks self file)))
  = full_entries self file.
Proof.
  rewrite (full_entries_blocks self (proj1 self_well_formed)).
  pose proof (split_not_nil (separator self) (proj1 self_well_formed) file)
    as N.
  unfold blocks. destruct (split file (separator self)) as [|h t];
    [congruence|].
  cbn [hd tl filter].
  assert (E : nonblank (newline :: h) = nonblank h).
  { unfold nonblank. now rewrite strip_cons_space by apply isspace_newline. }
  rewrite E. destruct (nonblank h); cbn [map]; [|reflexivity].
  now rewrite strip_cons_space by apply isspace_newline.
Qed.

Lemma filter_firstn_prefix {A : Type} (p : A -> bool) (n : nat) (l : list A) :
  exists k, filter p (firstn n l) = firstn k (filter p l).
Proof.
  revert n. induction l as [|x l IH]; intros n.
  - exists 0. now rewrite firstn_nil.
  - destruct n as [|n]; [exists 0; reflexivity|].
    destruct (IH n) as [k E]. cbn [firstn filter].
    destruct (p x); [exists (S k); cbn [firstn]; now rewrite E | now exists k].
Qed.

Lemma add_entries (file : str) :
  strip candidate <> [] ->
  fst (add self candidate file) = true ->
  full_entries self (snd (add self candidate file)) =
  strip candidate ::
  map strip
    (filter nonblank
       (firstn (max_entries self - 1)
          ((newline :: hd [] (blocks self file)) :: tl (blocks self file)))).
Proof.
  intros N T.
  rewrite (full_entries_blocks self (proj1 self_well_formed)).
  rewrite (add_blocks self self_well_formed) by assumption.
  pose proof (proj2 (proj2 self_well_formed)) as M.
  destruct (max_entries self) as [|n]; [lia|].
  replace (S n - 1) with n by lia.
  cbn [firstn filter]. unfold nonblank at 1.
  rewrite strip_snoc_space by apply isspace_newline.
  apply truthy_true in N. rewrite N. cbn [map].
  now rewrite strip_snoc_space by apply isspace_newline.
Qed.

End Storing.

(** X5. For a candidate without the separator inside, [add] returns True
    exactly when it changes the history file. *)
Theorem add_true_iff_file_changed (self : ClipboardManager)
    (candidate file : str) :
  well_formed self -> contains candidate (separator self) = false ->
  fst (add self candidate file) = true <-> snd (add self candidate file) <> file.
Proof. intros W C. now apply add_changes_file. Qed.

Lemma add_true_iff_file_changed_witness :
  well_formed init /\
  contains (lit "hello") (separator init) = false /\
  (fst (add init (lit "hello") []) = true <->
   snd (add init (lit "hello") []) <> []).
Proof.
  assert (C : contains (lit "hello") (separator init) = false) by reflexivity.
  split; [exact init_well_formed | split; [exact C|]].
  exact (add_true_iff_file_changed init (lit "hello") [] init_well_formed C).
Defined.

(** X6. A stored candidate without the separator inside is in the file as
    it was given: the first block of the file is the candidate followed by
    a line feed. *)
Theorem add_stores_verbatim (self : ClipboardManager) (candidate file : str) :
  well_formed self -> contains candidate (separator self) = false ->
  fst (add self candidate file) = true ->
  hd [] (blocks self (snd (add self candidate file))) = candidate ++ [newline].
Proof. intros W C T. now apply add_head. Qed.

Lemma add_stores_verbatim_witness :
  let x := lit "  hello " in
  well_formed init /\ contains x (separator init) = false /\
  fst (add init x []) = true /\
  hd [] (blocks init (snd (add init x []))) = x ++ [newline].
Proof.
  intros x.
  assert (C : contains x (separator init) = false) by reflexivity.
  assert (T : fst (add init x []) = true) by reflexivity.
  split; [exact init_well_formed | split; [exact C | split; [exact T|]]].
  exact (add_stores_verbatim init x [] init_well_formed C T).
Defined.

(** X7. A successful add of a candidate that is not blank and has no
    separator inside puts it in front of the entries listed before; these
    keep their order, and only entries at the end are dropped. *)
Theorem add_keeps_order (self : ClipboardManager) (candidate file : str) :
  well_formed self -> contains candidate (separator self) = false ->
  strip candidate <> [] ->
  fst (add self candidate file) = true ->
  exists k,
    full_entries self (snd (add self candidate file))
    = strip candidate :: firstn k (full_entries self file).
Proof.
  intros W C N T. rewrite (add_entries self W candidate C file N T).
  destruct (filter_firstn_prefix nonblank (max_entries self - 1)
              ((newline :: hd [] (blocks self file)) :: tl (blocks self file)))
    as [k E].
  exists k. f_equal.
  rewrite <- (shifted_blocks_entries self W file), firstn_map.
  f_equal. exact E.
Qed.

Lemma add_keeps_order_witness :
  let file := adds init [lit "a"; lit "b"; lit "c"; lit "d"; lit "e"] [] in
  let x := lit "f" in
  well_formed init /\ contains x (separator init) = false /\
  strip x <> [] /\ fst (add init x file) = true /\
  exists k,
    full_entries init (snd (add init x file))
    = strip x :: firstn k (full_entries init file).
Proof.
  intros file x.
  assert (C : contains x (separator init) = false) by reflexivity.
  assert (N : strip x <> []) by (vm_compute; discriminate).
  assert (T : fst (add init x file) = true) by (vm_compute; reflexivity).
  split; [exact init_well_formed|].
  split; [exact C | split; [exact N | split; [exact T|]]].
  exact (add_keeps_order init x file init_well_formed C N T).
Defined.

(** X8. When the file has fewer blocks than [max_entries], a successful
    add of such a candidate drops nothing: the list is the candidate,
    stripped, followed by the list before. *)
Theorem add_with_room (self : ClipboardManager) (candidate file : str) :
  well_formed self -> contains candidate (separator self) = false ->
  strip candidate <> [] ->
  fst (add self candidate file) = true ->
  length (blocks self file) < max_entries self ->
  full_entries self (snd (add self candidate file))
  = strip candidate :: full_entries self file.
Proof.
  intros W C N T R. rewrite (add_entries self W candidate C file N T).
  rewrite firstn_all2.
  - now rewrite (shifted_blocks_entries self W).
  - pose proof (split_not_nil (separator self) (proj1 W) file) as Hn.
    unfold blocks in *. destruct (split file (separator self));
      [congruence | cbn [hd tl length] in *; unfold str in *; lia].
Qed.

Lemma add_with_room_witness :
  let file := adds init [lit "a"; lit "b"] [] in
  let x := lit "c" in
  well_formed init /\ contains x (separator init) = false /\
  strip x <> [] /\ fst (add init x file) = true /\
  length (blocks init file) < max_entries init /\
  full_entries init (snd (add init x file))
  = strip x :: full_entries init file.
Proof.
  intros file x.
  assert (C : contains x (separator init) = false) by reflexivity.
  assert (N : strip x <> []) by (vm_compute; discriminate).
  assert (T : fst (add init x file) = true) by (vm_compute; reflexivity).
  assert (R : length (blocks init file) < max_entries init)
    by (vm_compute; lia).
  split; [exact init_well_formed|].
  split; [exact C | split; [exact N | split; [exact T | split; [exact R|]]]].
  exact (add_with_room init x file init_well_formed C N T R).
Defined.

(** ** No neighbouring duplicates *)

Lemma adjacent_distinct_firstn (n : nat) (l : list str) :
  adjacent_distinct l -> adjacent_distinct (firstn n l).
Proof.
  revert n. induction l as [|a l IH]; intros n H.
  - now rewrite firstn_nil.
  - destruct n as [|n]; [exact I|]. cbn [firstn].
    destruct l as [|b l]; [now rewrite firstn_nil|].
    destruct H as [D H]. specialize (IH n H).
    destruct n as [|n]; [exact I|]. cbn [firstn] in *. split; assumption.
Qed.

Lemma adjacent_distinct_shift (h : str) (t : list str) :
  adjacent_distinct (h :: t) -> adjacent_distinct ((newline :: h) :: t).
Proof.
  destruct t as [|b t]; [auto|]. intros [D H]. split; [|exact H].
  now rewrite strip_cons_space by apply isspace_newline.
Qed.

Lemma add_adjacent_distinct (self : ClipboardManager) (candidate file : str) :
  well_formed self -> contains candidate (separator self) = false ->
  adjacent_distinct (blocks self file) ->
  adjacent_distinct (blocks self (snd (add self candidate file))).
Proof.
  intros W C H. destruct (fst (add self candidate file)) eqn:T.
  - rewrite (add_blocks self W) by assumption.
    apply adjacent_distinct_firstn.
    rewrite (add_fst self W) in T. apply andb_true_iff in T.
    destruct T as [_ T]. apply negb_true_iff, str_eqb_neq in T.
    pose proof (split_not_nil (separator self) (proj1 W) file) as N.
    unfold blocks in *. destruct (split file (separator self)) as [|h t];
      [congruence|].
    cbn [hd tl] in *. split.
    + rewrite strip_snoc_space, strip_cons_space by apply isspace_newline.
      congruence.
    + now apply adjacent_distinct_shift.
  - now rewrite (add_snd self), T.
Qed.

(** X9. Starting from an empty history, after any adds of candidates
    without the separator inside, no two neighbouring blocks of the file
    are the same text once stripped: the check against the first block
    keeps duplicates apart. *)
Theorem adds_adjacent_distinct (self : ClipboardManager)
    (candidates : list str) :
  well_formed self ->
  Forall (fun x => contains x (separator self) = false) candidates ->
  adjacent_distinct (blocks self (adds self candidates [])).
Proof.
  intros W. unfold adds.
  assert (G : forall file,
             adjacent_distinct (blocks self file) ->
             Forall (fun x => contains x (separator self) = false) candidates ->
             adjacent_distinct
               (blocks self
                  (fold_left (fun f x => snd (add self x f)) candidates file))).
  { induction candidates as [|x l IH]; intros file H F; [exact H|].
    inversion F; subst. cbn [fold_left]. apply IH; auto.
    now apply add_adjacent_distinct. }
  apply G. exact I.
Qed.

Lemma adds_adjacent_distinct_witness :
  let candidates := [lit "a"; lit "a "; lit "b"; lit "b"; lit "a"] in
  well_formed init /\
  Forall (fun x => contains x (separator init) = false) candidates /\
  adjacent_distinct (blocks init (adds init candidates [])).
Proof.
  intros candidates.
  assert (F : Forall (fun x => contains x (separator init) = false) candidates)
    by (repeat (apply Forall_cons; [reflexivity|]); apply Forall_nil).
  split; [exact init_well_formed | split; [exact F|]].
  exact (adds_adjacent_distinct init candidates init_well_formed F).
Defined.

(** ** clear_history, then add *)

(** X10. After [clear_history], whatever the file held, adding a candidate
    that is not blank and has no separator inside is accepted, and the
    browser lists this one entry. *)
Theorem clear_then_add (file candidate : str) :
  contains candidate (separator init) = false ->
  strip candidate <> [] ->
  let cleared := snd (clear_history file) in
  fst (add init candidate cleared) = true /\
  full_entries init (snd (add init candidate cleared)) = [strip candidate].
Proof.
  intros C N cleared. unfold cleared. cbn [clear_history snd].
  assert (T : fst (add init candidate []) = true).
  { rewrite (add_fst init init_well_formed).
    change (blocks init []) with [@nil ascii]. cbn [hd].
    change (strip []) with (@nil ascii).
    assert (Hc : candidate <> []) by (intros ->; now apply N).
    apply truthy_true in Hc. rewrite Hc. cbn [andb].
    apply negb_true_iff, str_eqb_neq. congruence. }
  split; [exact T|].
  rewrite (add_entries init init_well_formed candidate C [] N T).
  reflexivity.
Qed.

Lemma clear_then_add_witness :
  let file := adds init [lit "a"; lit "b"] [] in
  let x := lit "hello" ++ [newline] in
  contains x (separator init) = false /\ strip x <> [] /\
  fst (add init x (snd (clear_history file))) = true /\
  full_entries init (snd (add init x (snd (clear_history file)))) = [strip x].
Proof.
  intros file x.
  assert (C : contains x (separator init) = false) by reflexivity.
  assert (N : strip x <> []) by (vm_compute; discriminate).
  split; [exact C | split; [exact N|]].
  exact (clear_then_add file x C N).
Defined.

(** ** Entries and the separator *)

Section Clean.

Variable sep : str.
Hypothesis sep_nonempty : sep <> [].

Lemma partition_None_suffix (u v : str) :
  partition (u ++ v) sep = None -> partition v sep = None.
Proof.
  induction u as [|c u IH]; [auto|]. intros H.
  apply partition_None_inv in H. now apply IH.
Qed.

Lemma partition_None_prefix (u v : str) :
  partition (u ++ v) sep = None -> partition u sep = None.
Proof.
  induction u as [|c u IH]; intros H.
  - now apply partition_nil.
  - apply partition_None_inv in H. destruct H as [F H].
    rewrite (partition_step sep)
      by exact (startswith_app_false (c :: u) v sep F).
    now rewrite IH.
Qed.

Lemma lstrip_suffix (s : str) : exists u, s = u ++ lstrip s.
Proof.
  induction s as [|c s [u IH]]; [now exists []|]. simpl.
  destruct (isspace c); [|now exists []].
  exists (c :: u). simpl. now f_equal.
Qed.

Lemma rstrip_prefix (s : str) : exists v, s = rstrip s ++ v.
Proof.
  destruct (lstrip_suffix (rev s)) as [u E]. exists (rev u).
  unfold rstrip. rewrite <- rev_app_distr, <- E. now rewrite rev_involutive.
Qed.

Lemma strip_clean (s : str) :
  partition s sep = None -> partition (strip s) sep = None.
Proof.
  intros H. unfold strip.
  destruct (lstrip_suffix s) as [u Eu].
  destruct (rstrip_prefix (lstrip s)) as [v Ev].
  rewrite Eu in H. apply partition_None_suffix in H.
  rewrite Ev in H. now apply partition_None_prefix in H.
Qed.

Lemma split_clean (s : str) :
  Forall (fun e => partition e sep = None) (split s sep).
Proof.
  induction s as [s P | s a b P IH] using (split_ind sep sep_nonempty).
  - rewrite (split_None sep s P). now repeat constructor.
  - rewrite (split_Some sep sep_nonempty s a b P). constructor; [|exact IH].
    exact (partition_before sep sep_nonempty s a b P).
Qed.

End Clean.

(** X11. No entry that the browser lists has the separator inside. *)
Theorem entries_without_separator (self : ClipboardManager) (file : str) :
  separator self <> [] ->
  Forall (fun entry => contains entry (separator self) = false)
    (full_entries self file).
Proof.
  intros Hsep. rewrite (full_entries_blocks self Hsep).
  apply Forall_forall. intros entry Hin.
  apply in_map_iff in Hin. destruct Hin as (block & <- & Hb).
  apply filter_In in Hb. destruct Hb as [Hb _].
  apply contains_false, (strip_clean _ Hsep).
  pose proof (split_clean _ Hsep file) as F. rewrite Forall_forall in F.
  now apply F.
Qed.

Lemma entries_without_separator_witness :
  let file := adds init [lit "a---CLIPBOARD_ENTRY_SEPARATOR---b"] [] in
  separator init <> [] /\
  Forall (fun entry => contains entry (separator init) = false)
    (full_entries init file).
Proof.
  intros file.
  assert (H : separator init <> []) by discriminate.
  split; [exact H | exact (entries_without_separator init file H)].
Defined.

(** * Further properties of the browser *)

Lemma menu_calls (P : str -> Prop) (display full : list str)
    (answers : list choice) (s : session) :
  (forall entry, In entry full -> P entry) ->
  Forall P (clipboard_calls s) ->
  Forall P (clipboard_calls (menu display full answers s)).
Proof.
  intros HP. revert s. induction answers as [|c rest IH]; intros s H;
    [exact H|].
  destruct c as [|confirm|preview_num|[number|] xclip]; cbn [menu].
  - exact H.
  - destruct confirm; [exact H | now apply IH].
  - now apply IH.
  - destruct ((0 <=? number - 1)%Z && (number - 1 <? Z.of_nat (length full))%Z)
      eqn:R.
    + apply andb_true_iff in R. destruct R as [R1 R2].
      apply Z.leb_le in R1. apply Z.ltb_lt in R2.
      assert (Hc : Forall P
                     (clipboard_calls
                        (pipe (nth (Z.to_nat (number - 1)) full [])
                           (print (Menu display) s)))).
      { cbn [pipe print clipboard_calls]. apply Forall_app. split; [exact H|].
        constructor; [|constructor]. apply HP, nth_In. lia. }
      destruct (set_clipboard_content xclip) as [[|]|e];
        [exact Hc | now apply IH | exact Hc].
    + now apply IH.
  - now apply IH.
Qed.

(** X12. Whatever the user answers, every text the browser hands to the
    clipboard is one of the entries it lists. *)
Theorem show_history_copies_listed (file : str) (answers : list choice) :
  Forall (fun text => In text (full_entries init file))
    (clipboard_calls (show_history init file answers)).
Proof.
  unfold show_history, full_entries.
  destruct (negb (truthy (strip file))); [constructor|].
  destruct (load_entries init file) as [[display full]|]; [|constructor].
  apply menu_calls; [auto | constructor].
Qed.

Lemma menu_keeps_file (display full : list str) (answers : list choice)
    (s : session) :
  forallb (fun c => negb (is_confirmed_clear c)) answers = true ->
  session_file (menu display full answers s) = session_file s.
Proof.
  revert s. induction answers as [|c rest IH]; intros s H; [reflexivity|].
  cbn [forallb] in H. apply andb_true_iff in H. destruct H as [Hc H].
  destruct c as [|confirm|preview_num|[number|] xclip]; cbn [menu].
  - reflexivity.
  - destruct confirm; [discriminate | now rewrite IH].
  - now rewrite IH.
  - destruct ((0 <=? number - 1)%Z && (number - 1 <? Z.of_nat (length full))%Z).
    + destruct (set_clipboard_content xclip) as [[|]|e]; try reflexivity.
      now rewrite IH.
    + now rewrite IH.
  - now rewrite IH.
Qed.

(** X13. Unless the user answers "c" and confirms, the browser leaves the
    history file as it is, whatever else is answered. *)
Theorem show_history_keeps_file (file : str) (answers : list choice) :
  forallb (fun c => negb (is_confirmed_clear c)) answers = true ->
  session_file (show_history init file answers) = file.
Proof.
  intros H. unfold show_history.
  destruct (negb (truthy (strip file))); [reflexivity|].
  destruct (load_entries init file) as [[display full]|]; [|reflexivity].
  now rewrite menu_keeps_file.
Qed.

Lemma show_history_keeps_file_witness :
  let file := adds init [lit "a"; lit "b"] [] in
  let answers := [Choice_p (Some 1%Z); Choice_c false;
                  Choice_number (Some 7%Z) (Exited 0);
                  Choice_number (Some 2%Z) (Exited 0)] in
  forallb (fun c => negb (is_confirmed_clear c)) answers = true /\
  session_file (show_history init file answers) = file.
Proof.
  intros file answers.
  assert (H : forallb (fun c => negb (is_confirmed_clear c)) answers = true)
    by reflexivity.
  split; [exact H | exact (show_history_keeps_file file answers H)].
Defined.

Lemma display_line_strip (entry : str) :
  display_line (strip entry) = display_line entry.
Proof. unfold display_line. now rewrite strip_idem. Qed.

(** X14. When the browser shows its menu, line i of the menu is made from
    entry i of the list: the two lists have the same length, and the list
    of entries is not empty. *)
Theorem menu_lines_match_entries (file : str) (display full : list str) :
  load_entries init file = Some (display, full) ->
  display = map display_line full /\ length display = length full /\
  full = full_entries init file /\ full <> [].
Proof.
  intros H.
  assert (F : full = full_entries init file)
    by (unfold full_entries; now rewrite H).
  unfold load_entries in H.
  destruct (negb (truthy (strip file))); [discriminate|].
  rewrite collect_entries_eq in H. cbn [app] in H.
  set (kept := filter nonblank (split file (separator init))) in *.
  destruct kept as [|block kept]; [discriminate|].
  cbn [map truthy negb] in H. injection H as Hd Hf. subst display full.
  split; [|split; [|split; [exact F | discriminate]]].
  - cbn [map]. f_equal.
    + symmetry. apply display_line_strip.
    + rewrite map_map. apply map_ext. intros e.
      symmetry. apply display_line_strip.
  - cbn [length]. now rewrite !length_map.
Qed.

Lemma menu_lines_match_entries_witness :
  let file := adds init [lit "a"; lit "b"] [] in
  let display := [lit "b"; lit "a"] in
  let full := [lit "b"; lit "a"] in
  load_entries init file = Some (display, full) /\
  display = map display_line full /\ length display = length full /\
  full = full_entries init file /\ full <> [].
Proof.
  intros file display full.
  assert (H : load_entries init file = Some (display, full))
    by (vm_compute; reflexivity).
  split; [exact H | exact (menu_lines_match_entries file display full H)].
Defined.

Lemma partition_single_None (c : ascii) (s : str) :
  partition s [c] = None -> ~ In c s.
Proof.
  induction s as [|d s IH]; intros H; [auto|].
  apply partition_None_inv in H. destruct H as [F H].
  cbn [startswith] in F. rewrite andb_true_r in F.
  apply Ascii.eqb_neq in F. intros [E | E]; [congruence | now apply IH].
Qed.

Lemma In_firstn {A : Type} (x : A) (n : nat) (l : list A) :
  In x (firstn n l) -> In x l.
Proof.
  intros H. rewrite <- (firstn_skipn n l). apply in_or_app. now left.
Qed.

Lemma first_line_no_newline (s : str) :
  ~ In newline (hd [] (split s [newline])).
Proof.
  assert (Hsep : [newline] <> []) by discriminate.
  pose proof (split_clean [newline] Hsep s) as F.
  destruct (split s [newline]) as [|e l]; [auto|].
  inversion F; subst. now apply partition_single_None.
Qed.

(** X15. A line of the menu is made from the first line of the stripped
    entry (the text before its first line feed): this line as it is when it
    has at most 60 characters, and its first 57 characters followed by
    "..." otherwise; the mark " [...]" follows exactly when the stripped
    entry goes on after that line.  So a menu line is a single line of at
    most 66 characters. *)
Theorem display_line_shape (entry : str) :
  exists first rest,
    strip entry = first ++ rest /\ ~ In newline first /\
    (rest = [] \/ exists more, rest = newline :: more) /\
    display_line entry =
      (if 60 <? length first then firstn 57 first ++ lit "..." else first)
      ++ (if truthy rest then lit " [...]" else []) /\
    length (display_line entry) <= 66 /\
    ~ In newline (display_line entry).
Proof.
  assert (Hsep : [newline] <> []) by discriminate.
  assert (Shape : exists first rest,
            strip entry = first ++ rest /\ ~ In newline first /\
            (rest = [] \/ exists more, rest = newline :: more) /\
            display_line entry =
              (if 60 <? length first then firstn 57 first ++ lit "..."
               else first)
              ++ (if truthy rest then lit " [...]" else [])).
  { unfold display_line, contains.
    destruct (partition (strip entry) [newline]) as [[a b]|] eqn:P.
    - exists a, (newline :: b).
      rewrite (split_Some [newline] Hsep _ _ _ P). cbn [hd truthy].
      repeat split.
      + exact (partition_Some [newline] Hsep _ _ _ P).
      + apply partition_single_None.
        exact (partition_before [newline] Hsep _ _ _ P).
      + right. now exists b.
    - exists (strip entry), [].
      rewrite (split_None [newline] _ P). cbn [hd truthy].
      repeat split.
      + now rewrite app_nil_r.
      + now apply partition_single_None.
      + now left.
      + now rewrite app_nil_r. }
  destruct Shape as (first & rest & E & N & R & D).
  exists first, rest. repeat split; auto; rewrite D.
  - rewrite length_app.
    assert (L : length (if 60 <? length first
                        then firstn 57 first ++ lit "..." else first) <= 60).
    { destruct (60 <? length first) eqn:C.
      - rewrite length_app, length_firstn.
        change (length (lit "...")) with 3. lia.
      - now apply Nat.ltb_ge in C. }
    destruct (truthy rest);
      [change (length (lit " [...]")) with 6 | cbn [length]]; lia.
  - intros H. apply in_app_or in H. destruct H as [H | H].
    + destruct (60 <? length first); [|now apply N].
      apply in_app_or in H. destruct H as [H | H].
      * apply In_firstn in H. now apply N.
      * simpl in H. repeat (destruct H as [H | H]; [discriminate|]). exact H.
    + destruct (truthy rest); [|exact H].
      simpl in H. repeat (destruct H as [H | H]; [discriminate|]). exact H.
Qed.



(** * Further properties of the monitor *)

Lemma on_exception_invariant (e : exception) (st : monitor_state) :
  running st = true -> counter_invariant st ->
  counter_invariant (on_exception e st).
Proof.
  intros R (B & L & T). specialize (L R). unfold on_exception.
  destruct (max_retries <=? retry_count st + 1) eqn:E.
  - apply Nat.leb_le in E. repeat split; cbn in *; try lia; try discriminate.
    + rewrite <- app_assoc in H. apply in_app_or in H.
      destruct H as [H | H]; [apply T in H; destruct H; congruence|].
      cbn in H. destruct H as [H | [H | []]]; [discriminate|].
      inversion H. unfold max_retries in *. lia.
  - apply Nat.leb_gt in E. repeat split; cbn in *; try lia.
    + apply in_app_or in H. destruct H as [H | H];
        [now apply T in H | cbn in H; destruct H as [H | []]; discriminate].
    + apply in_app_or in H. destruct H as [H | H];
        [apply T in H; destruct H; congruence
        | cbn in H; destruct H as [H | []]; discriminate].
Qed.

Lemma monitor_round_invariant (self : ClipboardManager) (t : tick)
    (st : monitor_state) :
  running st = true -> counter_invariant st ->
  counter_invariant (monitor_round self t st).
Proof.
  intros R Inv. pose proof Inv as (B & L & T). specialize (L R).
  assert (NoT : forall k, ~ In (Too_many_errors k) (log st)).
  { intros k H. apply T in H. destruct H; congruence. }
  destruct t as [xclip xclip_add|]; unfold monitor_round.
  - destruct (get_clipboard_content xclip) as [content|e];
      [|now apply on_exception_invariant].
    assert (Inv0 : forall n,
               counter_invariant
                 {| last_content := last_content st; retry_count := 0;
                    history_file := history_file st; log := log st;
                    sleeps := sleeps st; add_calls := n; running := true |}).
    { intros n. repeat split; cbn; unfold max_retries; try lia;
        now apply NoT in H. }
    destruct (truthy content
              && negb (str_eqb content (last_content (set_retry_count 0 st)))).
    + cbn [set_retry_count last_content retry_count history_file log sleeps
             add_calls running].
      destruct (add_to_history self xclip_add (history_file st))
        as [[added file']|e].
      * repeat split; cbn; unfold max_retries; try lia; try discriminate;
          destruct added; try (now apply NoT in H);
          apply in_app_or in H; destruct H as [H | H];
          try (now apply NoT in H); cbn in H; destruct H as [H | []];
          discriminate.
      * rewrite R. apply on_exception_invariant; [reflexivity | apply Inv0].
    + repeat split; cbn; unfold max_retries; try lia; try discriminate;
        now apply NoT in H.
  - repeat split; cbn; try lia; try discriminate.
    + apply in_app_or in H. destruct H as [H | H];
        [now apply NoT in H | cbn in H; destruct H as [H | []]; discriminate].
Qed.

Lemma monitor_loop_invariant (self : ClipboardManager) (ticks : list tick)
    (st : monitor_state) :
  counter_invariant st -> counter_invariant (monitor_loop self ticks st).
Proof.
  revert st. induction ticks as [|t rest IH]; intros st Inv; [exact Inv|].
  cbn [monitor_loop]. destruct (running st) eqn:R; [|exact Inv].
  now apply IH, monitor_round_invariant.
Qed.

(** X17. However the rounds of the monitor go, the counter of errors
    never passes [max_retries] and is below it while the loop runs; "Too
    many errors" is logged with [max_retries] only, and the loop has then
    stopped. *)
Theorem monitor_counter_invariant (xclip_test : run_outcome) (file : str)
    (ticks : list tick) :
  counter_invariant (monitor init xclip_test file ticks).
Proof.
  apply monitor_loop_invariant. unfold monitor_start.
  repeat split; cbn; unfold max_retries; try lia;
    destruct (get_clipboard_content xclip_test); cbn in H;
    intuition discriminate.
Qed.

Lemma monitor_round_unchanged (self : ClipboardManager) (xclip_add : run_outcome)
    (content : str) (st : monitor_state) :
  last_content st = content ->
  monitor_round self (Poll (CompletedProcess 0 content) xclip_add) st =
  {| last_content := last_content st; retry_count := 0;
     history_file := history_file st; log := log st;
     sleeps := sleeps st ++ [1]; add_calls := add_calls st;
     running := true |}.
Proof.
  intros E. unfold monitor_round. cbn [get_clipboard_content Z.eqb].
  cbn [set_retry_count last_content]. rewrite E, str_eqb_refl.
  rewrite andb_false_r. reflexivity.
Qed.

Lemma monitor_loop_unchanged (self : ClipboardManager) (xclip_add : run_outcome)
    (content : str) (n : nat) (st : monitor_state) :
  last_content st = content -> running st = true ->
  let st' := monitor_loop self
               (repeat (Poll (CompletedProcess 0 content) xclip_add) n) st in
  history_file st' = history_file st /\ add_calls st' = add_calls st /\
  last_content st' = content /\ running st' = true /\ log st' = log st.
Proof.
  revert st. induction n as [|n IH]; intros st E R;
    cbn [repeat monitor_loop]; auto.
  rewrite R, monitor_round_unchanged by exact E.
  apply (IH {| last_content := last_content st; retry_count := 0;
               history_file := history_file st; log := log st;
               sleeps := sleeps st ++ [1]; add_calls := add_calls st;
               running := true |}); [exact E | reflexivity].
Qed.

(** X18. While the clipboard holds the same text, not empty, the monitor
    adds it once however many times it polls: [add_to_history] is called in
    the first round only, and the history is what that add left. *)
Theorem monitor_adds_unchanged_clipboard_once (xclip_test : run_outcome)
    (content file : str) (n : nat) :
  content <> [] ->
  let poll := Poll (CompletedProcess 0 content) (CompletedProcess 0 content) in
  let st := monitor init xclip_test file (repeat poll (S n)) in
  add_calls st = 1 /\ history_file st = snd (add init content file) /\
  last_content st = content /\ running st = true.
Proof.
  intros N poll st. unfold st, monitor, poll.
  cbn [repeat monitor_loop monitor_start running].
  set (first :=
         monitor_round init
           (Poll (CompletedProcess 0 content) (CompletedProcess 0 content))
           (monitor_start xclip_test file)).
  assert (F : add_calls first = 1 /\
              history_file first = snd (add init content file) /\
              last_content first = content /\ running first = true).
  { unfold first, monitor_round, monitor_start.
    cbn [get_clipboard_content Z.eqb set_retry_count last_content
         history_file].
    apply truthy_true in N. rewrite N.
    destruct content as [|c content]; [discriminate|]. cbn [str_eqb negb andb].
    rewrite (add_to_history_completed init).
    destruct (add init (c :: content) file) as [added file'].
    repeat split. }
  destruct F as (F1 & F2 & F3 & F4).
  destruct (monitor_loop_unchanged init (CompletedProcess 0 content) content n
              first F3 F4) as (H1 & H2 & H3 & H4 & _).
  repeat split; congruence.
Qed.

Lemma monitor_adds_unchanged_clipboard_once_witness :
  let content := lit "hello" in
  let poll := Poll (CompletedProcess 0 content) (CompletedProcess 0 content) in
  let st := monitor init (CompletedProcess 0 content) [] (repeat poll (S 3)) in
  content <> [] /\
  add_calls st = 1 /\ history_file st = snd (add init content []) /\
  last_content st = content /\ running st = true.
Proof.
  intros content poll st.
  assert (N : content <> []) by discriminate.
  split; [exact N|].
  exact (monitor_adds_unchanged_clipboard_once
           (CompletedProcess 0 content) content [] 3 N).
Defined.






Lemma monitor_loop_stopped (self : ClipboardManager) (ticks : list tick)
    (st : monitor_state) :
  running st = false -> monitor_loop self ticks st = st.
Proof. intros R. destruct ticks; cbn [monitor_loop]; now rewrite ?R. Qed.

Lemma monitor_loop_raising (self : ClipboardManager) (e : exception)
    (xclip_add : run_outcome) (k : nat) (st : monitor_state) :
  is_SubprocessError e = false ->
  running st = true -> retry_count st < max_retries ->
  let st' := monitor_loop self (repeat (Poll (Raises e) xclip_add) k) st in
  retry_count st' = Nat.min (retry_count st + k) max_retries /\
  running st' = (retry_count st + k <? max_retries) /\
  history_file st' = history_file st.
Proof.
  intros E. revert st. induction k as [|k IH]; intros st R L.
  - cbn [repeat monitor_loop]. rewrite Nat.add_0_r. repeat split.
    + lia.
    + rewrite R. symmetry. now apply Nat.ltb_lt.
  - cbn [repeat monitor_loop]. rewrite R.
    assert (G : get_clipboard_content (Raises e) = Raise e)
      by (cbn; now rewrite E).
    destruct (monitor_round_read_raises self (Raises e) xclip_add st e G)
      as [C Rn].
    assert (F : history_file (monitor_round self (Poll (Raises e) xclip_add) st)
                = history_file st).
    { unfold monitor_round. rewrite G. apply on_exception_file. }
    destruct (retry_count st + 1 <? max_retries) eqn:B.
    + apply Nat.ltb_lt in B.
      destruct (IH (monitor_round self (Poll (Raises e) xclip_add) st) Rn)
        as (H1 & H2 & H3); [lia|].
      cbv zeta in *. rewrite H1, H2, H3, C, F.
      replace (retry_count st + 1 + k) with (retry_count st + S k) by lia.
      auto.
    + apply Nat.ltb_ge in B.
      rewrite (monitor_loop_stopped self _ _ Rn). rewrite C, Rn, F.
      repeat split; [lia|]. symmetry. apply Nat.ltb_ge. lia.
Qed.

(** X20. Reads that raise an exception other than a subprocess error, k in
    a row from the start of the monitor: the counter is k, up to
    [max_retries]; the loop runs while k is below [max_retries] and has
    stopped from there on; the history file is not touched. *)
Theorem monitor_counts_raised_reads (e : exception)
    (xclip_test xclip_add : run_outcome) (file : str) (k : nat) :
  is_SubprocessError e = false ->
  let st := monitor init xclip_test file (repeat (Poll (Raises e) xclip_add) k)
  in
  retry_count st = Nat.min k max_retries /\
  running st = (k <? max_retries) /\
  history_file st = file.
Proof.
  intros E st.
  exact (monitor_loop_raising init e xclip_add k
           (monitor_start xclip_test file) E eq_refl
           ltac:(unfold max_retries; cbn; lia)).
Qed.

Lemma monitor_counts_raised_reads_witness :
  let st := monitor init (Raises OSError) (lit "kept")
              (repeat (Poll (Raises OSError) (Raises OSError)) 7) in
  is_SubprocessError OSError = false /\
  retry_count st = Nat.min 7 max_retries /\
  running st = (7 <? max_retries) /\
  history_file st = lit "kept".
Proof.
  intros st. split; [reflexivity|].
  exact (monitor_counts_raised_reads OSError (Raises OSError) (Raises OSError)
           (lit "kept") 7 eq_refl).
Defined.

Lemma menu_copied (display full : list str) (answers : list choice)
    (s : session) :
  (In Copied_to_clipboard (printed s) -> clipboard_calls s <> []) ->
  In Copied_to_clipboard (printed (menu display full answers s)) ->
  clipboard_calls (menu display full answers s) <> [].
Proof.
  assert (P : forall o s0, o <> Copied_to_clipboard ->
                (In Copied_to_clipboard (printed s0) ->
                 clipboard_calls s0 <> []) ->
                In Copied_to_clipboard (printed (print o s0)) ->
                clipboard_calls (print o s0) <> []).
  { intros o s0 No H Hin. cbn [print printed clipboard_calls] in *.
    apply in_app_or in Hin. destruct Hin as [Hin | [Hin | []]];
      [now apply H | congruence]. }
  revert s. induction answers as [|c rest IH]; intros s H.
  - cbn [menu]. now apply P.
  - assert (Hm : In Copied_to_clipboard (printed (print (Menu display) s)) ->
                 clipboard_calls (print (Menu display) s) <> [])
      by (now apply P).
    destruct c as [|confirm|preview_num|[number|] xclip]; cbn [menu].
    + exact Hm.
    + destruct confirm; [|now apply IH].
      cbn [clear_history]. intros Hin.
      cbn [print printed clipboard_calls] in *.
      apply in_app_or in Hin. destruct Hin as [Hin | [Hin | []]];
        [now apply Hm | discriminate].
    + apply IH. apply P; [|exact Hm].
      unfold preview. destruct preview_num as [n|]; [|discriminate].
      destruct ((0 <=? n - 1)%Z && (n - 1 <? Z.of_nat (length full))%Z);
        discriminate.
    + destruct ((0 <=? number - 1)%Z
                && (number - 1 <? Z.of_nat (length full))%Z).
      * assert (Hc : forall s1, clipboard_calls
                 (pipe (nth (Z.to_nat (number - 1)) full []) s1) <> []).
        { intros s1. cbn [pipe clipboard_calls].
          destruct (clipboard_calls s1); discriminate. }
        destruct (set_clipboard_content xclip) as [[|]|e].
        -- intros _. apply Hc.
        -- apply IH. intros _. apply Hc.
        -- intros _. apply Hc.
      * apply IH. apply P; [discriminate | exact Hm].
    + apply IH. apply P; [discriminate | exact Hm].
Qed.

(** X21. The browser prints "Copied to clipboard!" only after handing an
    entry to the clipboard. *)
Theorem show_history_copied_after_call (file : str) (answers : list choice) :
  In Copied_to_clipboard (printed (show_history init file answers)) ->
  clipboard_calls (show_history init file answers) <> [].
Proof.
  unfold show_history.
  destruct (negb (truthy (strip file)));
    [cbn; intuition discriminate|].
  destruct (load_entries init file) as [[display full]|];
    [|cbn; intuition discriminate].
  apply menu_copied. cbn. tauto.
Qed.

Lemma show_history_copied_after_call_witness :
  let file := adds init [lit "a"; lit "b"] [] in
  let answers := [Choice_number (Some 1%Z) (Exited 0)] in
  In Copied_to_clipboard (printed (show_history init file answers)) /\
  clipboard_calls (show_history init file answers) <> [].
Proof.
  intros file answers.
  assert (H : In Copied_to_clipboard
                (printed (show_history init file answers)))
    by (vm_compute; auto).
  split; [exact H | exact (show_history_copied_after_call file answers H)].
Defined.
